(** * Stimulus loading, constrained randomization and trial sessions of
      the dual-task labeling experiment

    A shallow embedding of [dualtask_labeling_randomization.py],
    [dualtask_labeling_path_check.py], [load_progress] of
    [dualtask_labeling_configuration.py], and [present_trial],
    [get_output_file_path] and [run_trial_phase] of
    [dualtask_labeling_functions.py].

    - Python [str] values are [string]s, Python lists are [list]s, the
      stimulus dictionaries built by [extract_filename_info] are records.
    - Exceptions are values of [exc]; code that touches the file system,
      the random generator or the console runs in the monad [M] over a
      [World].
    - The file system is a tree of directories and files below the
      working directory.  A path is the list of its components ([[]] is
      the working directory itself), [os.path.join] is list
      concatenation, and the labeler id is taken to be one component.  A
      directory lists its entries in the order [os.scandir] reports them.
    - A file is represented by the rows [csv.reader] yields for it;
      [csv.writer] followed by [csv.reader] is taken to give back the rows
      written.
    - [random.shuffle] is the standard library's loop over [randbelow],
      fed from an explicit supply of draws.
    - The trial runner runs in the monad [L] over a [Lab]: the world, the
      keys the participant is going to press, and the clock. *)

From Stdlib Require Import List String Ascii Bool Arith ZArith Lia Permutation.
From Stdlib Require Import DecimalString.
Import ListNotations.
Local Open Scope string_scope.
Local Open Scope list_scope.

(** ** Exceptions *)

Inductive exc : Type :=
  | IndexError
  | ValueError
  | FileNotFoundError
  | FileExistsError
  | NotADirectoryError
  | IsADirectoryError
  | Exception (message : string).

Inductive result (A : Type) : Type :=
  | Ok (a : A)
  | Raise (e : exc).
Arguments Ok {A} a.
Arguments Raise {A} e.

Definition result_bind {A B} (r : result A) (k : A -> result B) : result B :=
  match r with
  | Ok a => k a
  | Raise e => Raise e
  end.

(** ** Python strings and lists *)

Module Py.

(** [sub in s] *)
Fixpoint contains (sub s : string) : bool :=
  if String.prefix sub s then true
  else match s with
       | EmptyString => false
       | String _ s' => contains sub s'
       end.

(** [s.endswith(suffix)] *)
Definition endswith (s suffix : string) : bool :=
  (String.length suffix <=? String.length s)%nat &&
  (substring (String.length s - String.length suffix) (String.length suffix) s
     =? suffix)%string.

(** [s.split(sep)] for a non-empty separator: the pieces between the
    non-overlapping occurrences of [sep], found left to right.  [skip]
    counts the characters of a separator still to be passed over and
    [cur] is the piece being collected. *)
Fixpoint split_go (sep : string) (skip : nat) (cur s : string) : list string :=
  match s with
  | EmptyString => [cur]
  | String c s' =>
      match skip with
      | S k => split_go sep k cur s'
      | O =>
          if String.prefix sep s
          then cur :: split_go sep (String.length sep - 1) "" s'
          else split_go sep 0 (cur ++ String c "") s'
      end
  end.

Definition split (s sep : string) : list string := split_go sep 0 "" s.

(** [sep.join(l)] *)
Definition join (sep : string) (l : list string) : string := String.concat sep l.

(** [l[i]], with Python's negative indices; out of range raises. *)
Definition getitem {A} (l : list A) (i : Z) : result A :=
  let n := Z.of_nat (List.length l) in
  let j := (if i <? 0 then n + i else i)%Z in
  if ((j <? 0) || (n <=? j))%Z then Raise IndexError
  else match nth_error l (Z.to_nat j) with
       | Some a => Ok a
       | None => Raise IndexError
       end.

(** [l[lo:hi]] and [l[lo:]] for non-negative bounds; slices never raise. *)
Definition slice {A} (l : list A) (lo hi : nat) : list A :=
  firstn (hi - lo) (skipn lo l).

Definition slice_from {A} (l : list A) (lo : nat) : list A := skipn lo l.

(** [sum(f(x) for x in l)] for a boolean [f] *)
Definition sum_bool {A} (f : A -> bool) (l : list A) : nat :=
  List.length (filter f l).

End Py.

Notation "x <-? r ;; k" := (result_bind r (fun x => k))
  (at level 61, r at next level, right associativity).

(** ** The attribute extractor *)

(** The dictionary [info] of [extract_filename_info]; every branch sets the
    same seven keys. *)
Record Stimulus : Type := mkStimulus {
  filename : string;
  exp : string;
  speaker : string;
  trial : string;
  stimulus_origin : string;
  name_stim : string;
  condition : string
}.

(** [x.split(".wav")[0]] *)
Definition strip_wav (x : string) : result string :=
  Py.getitem (Py.split x ".wav") 0.

Definition extract_filename_info (filename : string) : result Stimulus :=
  let parts := Py.split filename "_" in
  if Py.contains "single" filename then
    exp_ <-? Py.getitem parts 0 ;;
    speaker_ <-? Py.getitem parts 1 ;;
    trial_ <-? Py.getitem parts 4 ;;
    p2 <-? Py.getitem parts 2 ;;
    p3 <-? Py.getitem parts 3 ;;
    name_ <-? strip_wav (Py.join "_" (Py.slice_from parts 5)) ;;
    last_ <-? Py.getitem parts (-1) ;;
    cond_ <-? strip_wav last_ ;;
    Ok (mkStimulus filename exp_ speaker_ trial_ (Py.join "_" [p2; p3]) name_ cond_)
  else if Py.contains "gating" filename then
    exp_ <-? Py.getitem parts 0 ;;
    speaker_ <-? Py.getitem parts 1 ;;
    trial_ <-? Py.getitem parts 3 ;;
    p0 <-? Py.getitem parts 0 ;;
    p2 <-? Py.getitem parts 2 ;;
    name_ <-? strip_wav (Py.join "_" (Py.slice_from parts 4)) ;;
    last_ <-? Py.getitem parts (-1) ;;
    cond_ <-? strip_wav last_ ;;
    Ok (mkStimulus filename exp_ speaker_ trial_ (Py.join "_" [p0; p2]) name_ cond_)
  else
    exp_ <-? Py.getitem parts 0 ;;
    speaker_ <-? Py.getitem parts 1 ;;
    trial_ <-? Py.getitem parts 6 ;;
    name_ <-? strip_wav (Py.join "_" (Py.slice_from parts 7)) ;;
    last_ <-? Py.getitem parts (-1) ;;
    cond_ <-? strip_wav last_ ;;
    Ok (mkStimulus filename exp_ speaker_ trial_
          (Py.join "_" (Py.slice parts 2 6)) name_ cond_).

(** ** The world: file system, random generator, console *)

Definition path : Type := list string.
Definition csv_rows : Type := list (list string).

#[warnings="-register-all"]
Inductive node : Type :=
  | File (rows : csv_rows)
  | Dir (entries : list (string * node)).

(** The pseudo-random generator: an endless supply of raw draws and the
    number already consumed. *)
Record Rng : Type := mkRng { draws : nat -> nat; consumed : nat }.

(** What the module prints. *)
Inductive message : Type :=
  | WarnUnsatisfiable
  | LoadedExisting (randomized_file_path : path)
  | SavedNew (randomized_file_path : path).

Record World : Type := mkWorld {
  fs : node;
  rng : Rng;
  stdout : list message
}.

Definition set_fs (n : node) (w : World) : World := mkWorld n (rng w) (stdout w).
Definition set_rng (g : Rng) (w : World) : World := mkWorld (fs w) g (stdout w).
Definition add_stdout (m : message) (w : World) : World :=
  mkWorld (fs w) (rng w) (stdout w ++ [m]).

(** A computation returns a value or raises, and leaves a world behind;
    [None] means the loop fuel ran out before the computation finished. *)
Definition M (A : Type) : Type := World -> option (result A * World).

Definition ret {A} (a : A) : M A := fun w => Some (Ok a, w).
Definition raise {A} (e : exc) : M A := fun w => Some (Raise e, w).
Definition out_of_fuel {A} : M A := fun _ => None.
Definition lift {A} (r : result A) : M A := fun w => Some (r, w).
Definition bind {A B} (m : M A) (k : A -> M B) : M B :=
  fun w =>
    match m w with
    | Some (Ok a, w') => k a w'
    | Some (Raise e, w') => Some (Raise e, w')
    | None => None
    end.

Notation "x <- m ;; k" := (bind m (fun x => k))
  (at level 61, m at next level, right associativity).
Notation "m ;;; k" := (bind m (fun _ => k))
  (at level 61, right associativity).

Definition print (m : message) : M unit := fun w => Some (Ok tt, add_stdout m w).

(** A list comprehension whose element expression may raise. *)
Fixpoint comprehension {A B} (f : A -> result B) (l : list A) : result (list B) :=
  match l with
  | [] => Ok []
  | a :: l' => b <-? f a ;; bs <-? comprehension f l' ;; Ok (b :: bs)
  end.

(** *** Directories *)

Fixpoint find_entry (name : string) (es : list (string * node)) : option node :=
  match es with
  | [] => None
  | (n, child) :: es' => if (n =? name)%string then Some child else find_entry name es'
  end.

Fixpoint set_entry (name : string) (new : node) (es : list (string * node))
  : list (string * node) :=
  match es with
  | [] => [(name, new)]
  | (n, child) :: es' =>
      if (n =? name)%string then (n, new) :: es' else (n, child) :: set_entry name new es'
  end.

Fixpoint lookup (p : path) (n : node) : option node :=
  match p with
  | [] => Some n
  | c :: p' =>
      match n with
      | File _ => None
      | Dir es =>
          match find_entry c es with
          | Some child => lookup p' child
          | None => None
          end
      end
  end.

(** [os.path.exists(p)] *)
Definition os_path_exists (p : path) (n : node) : bool :=
  match lookup p n with
  | Some _ => true
  | None => false
  end.

(** [os.mkdir(p)]: the parent has to be a directory and [p] must not exist. *)
Fixpoint mkdir_at (p : path) (n : node) : result node :=
  match p with
  | [] => Raise FileExistsError
  | c :: p' =>
      match n with
      | File _ => Raise NotADirectoryError
      | Dir es =>
          match p', find_entry c es with
          | [], Some _ => Raise FileExistsError
          | [], None => Ok (Dir (es ++ [(c, Dir [])]))
          | _ :: _, Some child =>
              child' <-? mkdir_at p' child ;; Ok (Dir (set_entry c child' es))
          | _ :: _, None => Raise FileNotFoundError
          end
      end
  end.

(** The chain of fresh, empty directories [c1/c2/.../ck]. *)
Fixpoint new_dirs (p : path) : node :=
  match p with
  | [] => Dir []
  | c :: p' => Dir [(c, new_dirs p')]
  end.

(** [os.makedirs(p, exist_ok=True)]: missing directories along [p] are
    created; a file in the way raises. *)
Fixpoint makedirs_at (p : path) (n : node) : result node :=
  match n with
  | File _ =>
      match p with
      | [] => Raise FileExistsError
      | _ :: _ => Raise NotADirectoryError
      end
  | Dir es =>
      match p with
      | [] => Ok n
      | c :: p' =>
          match find_entry c es with
          | Some child =>
              child' <-? makedirs_at p' child ;; Ok (Dir (set_entry c child' es))
          | None => Ok (Dir (es ++ [(c, new_dirs p')]))
          end
      end
  end.

(** [open(p, 'w')] followed by writing [rows] with [csv.writer]: the file
    is created or replaced. *)
Fixpoint write_at (p : path) (rows : csv_rows) (n : node) : result node :=
  match p with
  | [] => Raise IsADirectoryError
  | c :: p' =>
      match n with
      | File _ => Raise NotADirectoryError
      | Dir es =>
          match p', find_entry c es with
          | [], Some (Dir _) => Raise IsADirectoryError
          | [], Some (File _) => Ok (Dir (set_entry c (File rows) es))
          | [], None => Ok (Dir (es ++ [(c, File rows)]))
          | _ :: _, Some child =>
              child' <-? write_at p' rows child ;; Ok (Dir (set_entry c child' es))
          | _ :: _, None => Raise FileNotFoundError
          end
      end
  end.

(** [open(p, 'r')] read through [csv.reader]. *)
Definition read_at (p : path) (n : node) : result csv_rows :=
  match lookup p n with
  | Some (File rows) => Ok rows
  | Some (Dir _) => Raise IsADirectoryError
  | None => Raise FileNotFoundError
  end.

Definition dir_names (es : list (string * node)) : list string :=
  map fst (filter (fun e => match snd e with Dir _ => true | File _ => false end) es).

Definition file_names (es : list (string * node)) : list string :=
  map fst (filter (fun e => match snd e with Dir _ => false | File _ => true end) es).

(** [os.walk(root)], top down: one triple [(root, dirs, files)] per
    directory, a directory before its subdirectories. *)
Fixpoint walk (root : path) (n : node) : list (path * list string * list string) :=
  match n with
  | File _ => []
  | Dir es =>
      (root, dir_names es, file_names es) ::
      (fix subdirs (l : list (string * node)) :=
         match l with
         | [] => []
         | (name, child) :: l' => walk (root ++ [name]) child ++ subdirs l'
         end) es
  end.

Definition os_walk (top : path) (n : node) : list (path * list string * list string) :=
  match lookup top n with
  | Some d => walk top d
  | None => []
  end.

(** The names ending in [.wav] below a node, in the order of the walk. *)
Fixpoint wav_names (n : node) : list string :=
  match n with
  | File _ => []
  | Dir es =>
      filter (fun file => Py.endswith file ".wav") (file_names es) ++
      (fix subdirs (l : list (string * node)) :=
         match l with
         | [] => []
         | (_, child) :: l' => wav_names child ++ subdirs l'
         end) es
  end.

Definition sub_wav_names (es : list (string * node)) : list string :=
  flat_map (fun e => wav_names (snd e)) es.

Definition pick_wav (t : path * list string * list string) : list string :=
  let '(_, _, files) := t in filter (fun file => Py.endswith file ".wav") files.

(** Induction on file-system trees. *)
Fixpoint node_induction (P : node -> Prop)
    (HFile : forall rows, P (File rows))
    (HDir : forall es, Forall (fun e => P (snd e)) es -> P (Dir es))
    (n : node) : P n :=
  match n with
  | File rows => HFile rows
  | Dir es =>
      HDir es
        ((fix all (l : list (string * node)) : Forall (fun e => P (snd e)) l :=
            match l with
            | [] => Forall_nil _
            | e :: l' => Forall_cons e (node_induction P HFile HDir (snd e)) (all l')
            end) es)
  end.

(** File-system operations as computations. *)
Definition os_makedirs (p : path) : M unit :=
  fun w =>
    match makedirs_at p (fs w) with
    | Ok n => Some (Ok tt, set_fs n w)
    | Raise e => Some (Raise e, w)
    end.

Definition os_mkdir (p : path) : M unit :=
  fun w =>
    match mkdir_at p (fs w) with
    | Ok n => Some (Ok tt, set_fs n w)
    | Raise e => Some (Raise e, w)
    end.

Definition exists_ (p : path) : M bool := fun w => Some (Ok (os_path_exists p (fs w)), w).

Definition csv_read (p : path) : M csv_rows := fun w => Some (read_at p (fs w), w).

Definition csv_write (p : path) (rows : csv_rows) : M unit :=
  fun w =>
    match write_at p rows (fs w) with
    | Ok n => Some (Ok tt, set_fs n w)
    | Raise e => Some (Raise e, w)
    end.

(** *** [random.shuffle] *)

(** [randbelow(n)] *)
Definition randbelow (n : nat) (g : Rng) : nat * Rng :=
  (draws g (consumed g) mod n, mkRng (draws g) (S (consumed g))).

Fixpoint list_set {A} (l : list A) (i : nat) (v : A) : list A :=
  match l, i with
  | [], _ => []
  | _ :: l', O => v :: l'
  | a :: l', S i' => a :: list_set l' i' v
  end.

(** [x[i], x[j] = x[j], x[i]] *)
Definition swap {A} (x : list A) (i j : nat) : list A :=
  match nth_error x i, nth_error x j with
  | Some a, Some b => list_set (list_set x i b) j a
  | _, _ => x
  end.

(** The library's in-place shuffle:
    [for i in reversed(range(1, len(x))): j = randbelow(i + 1); swap]. *)
Fixpoint shuffle_from {A} (i : nat) (x : list A) (g : Rng) : list A * Rng :=
  match i with
  | O => (x, g)
  | S i' =>
      let (j, g') := randbelow (S i) g in
      shuffle_from i' (swap x i j) g'
  end.

Definition shuffle {A} (x : list A) (g : Rng) : list A * Rng :=
  shuffle_from (List.length x - 1) x g.

Definition random_shuffle {A} (x : list A) : M (list A) :=
  fun w => let (x', g') := shuffle x (rng w) in Some (Ok x', set_rng g' w).

(** ** The constraint randomizer *)

(** Equality of two stimulus dictionaries ([==] on dicts): the same value
    under every key. *)
Definition Stimulus_eqb (a b : Stimulus) : bool :=
  (filename a =? filename b)%string && (exp a =? exp b)%string &&
  (speaker a =? speaker b)%string && (trial a =? trial b)%string &&
  (stimulus_origin a =? stimulus_origin b)%string &&
  (name_stim a =? name_stim b)%string && (condition a =? condition b)%string.

Definition Stimulus_eq_dec (a b : Stimulus) : {a = b} + {a <> b}.
Proof. decide equality; apply string_dec. Defined.

(** [l.remove(x)]: drops the first element equal to [x]; raises when there
    is none. *)
Fixpoint list_remove (x : Stimulus) (l : list Stimulus) : result (list Stimulus) :=
  match l with
  | [] => Raise ValueError
  | y :: l' =>
      if Stimulus_eqb y x then Ok l'
      else l'' <-? list_remove x l' ;; Ok (y :: l'')
  end.

(** The condition of the [if] inside the [for] loop. *)
Definition within_caps (randomized_stimuli : list Stimulus) (stimulus : Stimulus) : bool :=
  (Py.sum_bool (fun stim => (condition stim =? condition stimulus)%string)
     randomized_stimuli <? 4)%nat &&
  (Py.sum_bool (fun stim => (name_stim stim =? name_stim stimulus)%string)
     randomized_stimuli <? 3)%nat &&
  (Py.sum_bool (fun stim => (speaker stim =? speaker stimulus)%string)
     randomized_stimuli <? 3)%nat &&
  (Py.sum_bool (fun stim => (stimulus_origin stim =? stimulus_origin stimulus)%string)
     randomized_stimuli <? 4)%nat.

(** How one pass through the body of the [while] loop ends: a stimulus was
    moved from the pool to the output and the loop goes on, or the rest of
    the pool was appended and the loop was left by [break]. *)
Inductive outcome : Type :=
  | Placed (stimuli_copy randomized_stimuli : list Stimulus)
  | Flushed (randomized_stimuli : list Stimulus).

(** The body of the [while] loop.  The [for] loop with its [break] picks
    the first stimulus of the pool that passes the test. *)
Definition loop_body (stimuli_copy randomized_stimuli : list Stimulus) : M outcome :=
  match find (within_caps randomized_stimuli) stimuli_copy with
  | Some stimulus =>
      stimuli_copy' <- lift (list_remove stimulus stimuli_copy) ;;
      ret (Placed stimuli_copy' (randomized_stimuli ++ [stimulus]))
  | None =>
      print WarnUnsatisfiable ;;;
      ret (Flushed (randomized_stimuli ++ stimuli_copy))
  end.

(** [while stimuli_copy: ...]; one unit of fuel per pass through the body. *)
Fixpoint while_loop (fuel : nat) (stimuli_copy randomized_stimuli : list Stimulus)
  : M (list Stimulus) :=
  match stimuli_copy with
  | [] => ret randomized_stimuli
  | _ :: _ =>
      match fuel with
      | O => out_of_fuel
      | S fuel' =>
          o <- loop_body stimuli_copy randomized_stimuli ;;
          match o with
          | Placed stimuli_copy' randomized_stimuli' =>
              while_loop fuel' stimuli_copy' randomized_stimuli'
          | Flushed randomized_stimuli' => ret randomized_stimuli'
          end
      end
  end.

Definition constraint_randomization (stimulus_data : list Stimulus) : M (list Stimulus) :=
  stimuli_copy <- random_shuffle stimulus_data ;;
  while_loop (List.length stimuli_copy) stimuli_copy [].

Definition randomize_stimuli (stimuli_files : list string) : M (list string) :=
  stimulus_data <- lift (comprehension extract_filename_info stimuli_files) ;;
  randomized_stimuli_data <- constraint_randomization stimulus_data ;;
  ret (map filename randomized_stimuli_data).

(** ** The stimulus set loader *)

(** The names collected by the walk over the stimulus directory. *)
Definition all_stimuli (stimuli_path : path) (n : node) : list string :=
  flat_map (fun '(_, _, files) => filter (fun file => Py.endswith file ".wav") files)
           (os_walk stimuli_path n).

(** [x in l] for strings *)
Definition str_in (x : string) (l : list string) : bool :=
  existsb (fun y => (y =? x)%string) l.

(** [[row[0] for row in reader]] *)
Definition first_fields (rows : csv_rows) : result (list string) :=
  comprehension (fun row => Py.getitem row 0) rows.

(** [progress_file] is [None] or a path; a path is a non-empty string and
    so counts as true in [if progress_file and ...]. *)
Definition load_stimuli (stimuli_path : path) (progress_file : option path)
  : M (list string) :=
  fun w =>
    let all := all_stimuli stimuli_path (fs w) in
    match progress_file with
    | Some pf =>
        (found <- exists_ pf ;;
         if found then
           rows <- csv_read pf ;;
           labeled_stimuli <- lift (first_fields rows) ;;
           ret (filter (fun stimulus => negb (str_in stimulus labeled_stimuli)) all)
         else ret all) w
    | None => ret all w
    end.

(** [load_progress] of the configuration module. *)
Definition load_progress (progress_file_path : path) : M (list string) :=
  found <- exists_ progress_file_path ;;
  if negb found then ret []
  else rows <- csv_read progress_file_path ;; lift (first_fields rows).

(** The dictionary returned by [get_participant_info]. *)
Record ParticipantInfo : Type := mkParticipantInfo {
  experiment : string;
  cur_date : string;
  labeler : string
}.

Definition progress_directory (participant_info : ParticipantInfo) : path :=
  ["results"; labeler participant_info].

Definition progress_file_path (participant_info : ParticipantInfo) (phase : string) : path :=
  progress_directory participant_info
    ++ [(labeler participant_info ++ "_" ++ phase ++ "_progress.csv")%string].

Definition randomization_directory (participant_info : ParticipantInfo) : path :=
  ["randomization_lists"; labeler participant_info].

Definition randomized_file_path (participant_info : ParticipantInfo) (phase : string) : path :=
  randomization_directory participant_info ++ [(phase ++ "_randomized_stimuli.csv")%string].

Definition load_and_randomize (stimuli_path : path) (participant_info : ParticipantInfo)
    (phase : string) : M (list string * path) :=
  os_makedirs (progress_directory participant_info) ;;;
  if (phase =? "practice")%string then
    practice_stimuli <-
      load_stimuli stimuli_path (Some (progress_file_path participant_info phase)) ;;
    ret (practice_stimuli, progress_file_path participant_info phase)
  else
    os_makedirs (randomization_directory participant_info) ;;;
    found <- exists_ (randomized_file_path participant_info phase) ;;
    randomized_stimuli <-
      (if found then
         rows <- csv_read (randomized_file_path participant_info phase) ;;
         (* next(reader, None): the first row is skipped *)
         randomized_stimuli <- lift (first_fields (tl rows)) ;;
         print (LoadedExisting (randomized_file_path participant_info phase)) ;;;
         ret randomized_stimuli
       else
         stimuli_files <- load_stimuli stimuli_path None ;;
         randomized_stimuli <- randomize_stimuli stimuli_files ;;
         csv_write (randomized_file_path participant_info phase)
                   (map (fun stimulus => [stimulus]) randomized_stimuli) ;;;
         print (SavedNew (randomized_file_path participant_info phase)) ;;;
         ret randomized_stimuli) ;;
    ret (randomized_stimuli, progress_file_path participant_info phase).

(** ** The path check *)

Definition check_config_paths
    (test_stimuli_path practice_stimuli_path results_path pics_path random_path : path)
  : M unit :=
  found <- exists_ test_stimuli_path ;;
  (if negb found then
     raise (Exception ("No input folder detected. Please make sure that "
                       ++ "'test_stimuli_path' is correctly set in the configurations")%string)
   else ret tt) ;;;
  found <- exists_ practice_stimuli_path ;;
  (if negb found then
     raise (Exception ("No input folder detected. Please make sure that "
                       ++ "'practice_stimuli_path' is correctly set in the configurations")%string)
   else ret tt) ;;;
  found <- exists_ pics_path ;;
  (if negb found then
     raise (Exception ("No pics folder detected. Please make sure that "
                       ++ "'pics_path' is correctly set in the configurations")%string)
   else ret tt) ;;;
  found <- exists_ results_path ;;
  (if negb found then os_mkdir results_path else ret tt) ;;;
  found <- exists_ random_path ;;
  (if negb found then os_mkdir random_path else ret tt).

(** The three checks at the head of [check_config_paths]. *)
Definition required_present (test_stimuli_path practice_stimuli_path pics_path : path)
    (n : node) : bool :=
  os_path_exists test_stimuli_path n && os_path_exists practice_stimuli_path n &&
  os_path_exists pics_path n.

(** ** The trial runner ([dualtask_labeling_functions.py])

    The functions below touch the participant and the clock besides the
    file system.  The participant is the list of keys still to be pressed;
    the clock is an endless supply of readings.  Drawing on the window and
    playing the recording are outside the model: those calls are taken to
    return.  A clock reading is an opaque [timestamp]; the two functions
    that turn readings into the strings of a results row
    ([strftime('%H:%M:%S')] of a reading, and the [HH:MM:SS] rendering of
    the difference of two readings) are parameters. *)

(** [open(p, 'a')] followed by writing [rows] with [csv.writer]: the file
    is created when it is missing, and the rows are added at its end. *)
Fixpoint append_at (p : path) (rows : csv_rows) (n : node) : result node :=
  match p with
  | [] => Raise IsADirectoryError
  | c :: p' =>
      match n with
      | File _ => Raise NotADirectoryError
      | Dir es =>
          match p', find_entry c es with
          | [], Some (Dir _) => Raise IsADirectoryError
          | [], Some (File old) => Ok (Dir (set_entry c (File (old ++ rows)) es))
          | [], None => Ok (Dir (es ++ [(c, File rows)]))
          | _ :: _, Some child =>
              child' <-? append_at p' rows child ;; Ok (Dir (set_entry c child' es))
          | _ :: _, None => Raise FileNotFoundError
          end
      end
  end.

Definition csv_append (p : path) (rows : csv_rows) : M unit :=
  fun w =>
    match append_at p rows (fs w) with
    | Ok n => Some (Ok tt, set_fs n w)
    | Raise e => Some (Raise e, w)
    end.

(** [os.makedirs(p)] without [exist_ok]: an existing [p] raises. *)
Definition os_makedirs_new (p : path) : M unit :=
  fun w =>
    if os_path_exists p (fs w) then Some (Raise FileExistsError, w)
    else match makedirs_at p (fs w) with
         | Ok n => Some (Ok tt, set_fs n w)
         | Raise e => Some (Raise e, w)
         end.

(** [str(n)] for a non-negative integer *)
Definition str_of_nat (n : nat) : string := NilZero.string_of_uint (Nat.to_uint n).

Definition get_output_file_path (labeler_id : string) : M path :=
  let output_directory := ["results"; labeler_id] in
  found <- exists_ output_directory ;;
  (if negb found then os_makedirs_new output_directory else ret tt) ;;;
  ret (output_directory ++ [(labeler_id ++ "_results.csv")%string]).

(** The expressions of [run_trial_phase] that score a response. *)
Definition correct_answer (condition nobracket_pos_label bracket_pos_label : string)
  : string :=
  if ((condition =? "nob")%string && (nobracket_pos_label =? "left")%string)
     || ((condition =? "bra")%string && (bracket_pos_label =? "left")%string)
  then "left" else "right".

Definition accuracy (response_key correct_answer : string) : nat :=
  if (response_key =? correct_answer)%string then 1
  else if (response_key =? "down")%string then 2
  else 0.

Definition response_condition (response_key nobracket_pos_label bracket_pos_label : string)
  : string :=
  if (response_key =? nobracket_pos_label)%string then "nob"
  else if (response_key =? bracket_pos_label)%string then "bra"
  else "unknown".

Definition headers : list string :=
  ["experiment"; "labelerID"; "date"; "trial"; "phase"; "response"; "response_condition";
   "accuracy"; "braPic_position"; "nobPic_position"; "recording_processed";
   "recording_nr_repetitions"; "recording_speaker"; "recording_name_stim";
   "recording_condition"; "recording_experiment"; "recording_origin"; "recording_trial";
   "start_time"; "end_time"; "duration"].

(** [trial_data], the row written for one trial. *)
Definition trial_data (participant_info : ParticipantInfo) (trial_counter : nat)
    (phase response_key : string) (nobracket_pos_label bracket_pos_label : string)
    (stimulus_file : string) (nr_repetitions : nat) (stimulus : Stimulus)
    (start_time_str end_time_str duration_str : string) : list string :=
  [experiment participant_info; labeler participant_info; cur_date participant_info;
   str_of_nat trial_counter; phase; response_key;
   response_condition response_key nobracket_pos_label bracket_pos_label;
   str_of_nat (accuracy response_key
                 (correct_answer (condition stimulus) nobracket_pos_label
                                 bracket_pos_label));
   bracket_pos_label; nobracket_pos_label; stimulus_file; str_of_nat nr_repetitions;
   speaker stimulus; name_stim stimulus; condition stimulus; exp stimulus;
   stimulus_origin stimulus; trial stimulus;
   start_time_str; end_time_str; duration_str].

(** The lines [run_trial_phase] prints when the participant stops:
    ["Moving to the test phase..."] and
    ["Experiment paused by the user. Saving progress..."]. *)
Inductive notice : Type :=
| MovingToTestPhase
| ExperimentPaused.

Section TrialRunner.

Context {timestamp : Type}.

(** [datetime.datetime.fromtimestamp(t).strftime('%H:%M:%S')] *)
Variable strftime_HMS : timestamp -> string.

(** The rendering of [end_time - start_time] as [HH:MM:SS];
    the arguments are the start and the end reading. *)
Variable format_duration : timestamp -> timestamp -> string.

(** The laboratory: the world, the keys the participant is going to
    press, the clock with the number of readings taken, and the lines the
    trial runner has printed (kept apart from the lines of the
    randomization functions, which are in the world). *)
Record Lab : Type := mkLab {
  world : World;
  presses : list string;
  clock : nat -> timestamp;
  clock_reads : nat;
  printed : list notice
}.

Definition set_world (w : World) (l : Lab) : Lab :=
  mkLab w (presses l) (clock l) (clock_reads l) (printed l).
Definition set_presses (ks : list string) (l : Lab) : Lab :=
  mkLab (world l) ks (clock l) (clock_reads l) (printed l).

(** Computations in the laboratory; [None]: the computation does not
    return (the participant presses no further key it waits for). *)
Definition L (A : Type) : Type := Lab -> option (result A * Lab).

Definition retL {A} (a : A) : L A := fun l => Some (Ok a, l).
Definition bindL {A B} (m : L A) (k : A -> L B) : L B :=
  fun l =>
    match m l with
    | Some (Ok a, l') => k a l'
    | Some (Raise e, l') => Some (Raise e, l')
    | None => None
    end.

(** A computation on the world, run in the laboratory. *)
Definition in_world {A} (m : M A) : L A :=
  fun l =>
    match m (world l) with
    | Some (r, w') => Some (r, set_world w' l)
    | None => None
    end.

Notation "x <~ m ;; k" := (bindL m (fun x => k))
  (at level 61, m at next level, right associativity).
Notation "m ~;; k" := (bindL m (fun _ => k))
  (at level 61, right associativity).

(** [time.time()] *)
Definition time_time : L timestamp :=
  fun l => Some (Ok (clock l (clock_reads l)),
                 mkLab (world l) (presses l) (clock l) (S (clock_reads l)) (printed l)).

Definition print_notice (line : notice) : L unit :=
  fun l => Some (Ok tt, mkLab (world l) (presses l) (clock l) (clock_reads l)
                              (printed l ++ [line])).

(** The next key press that is in [keyList]; earlier presses of other keys
    are dropped. *)
Fixpoint next_key (keyList : list string) (ks : list string)
  : option (string * list string) :=
  match ks with
  | [] => None
  | k :: ks' => if str_in k keyList then Some (k, ks') else next_key keyList ks'
  end.

(** [waitKeys(keyList=...)], returning the name of the key. *)
Definition waitKeys (keyList : list string) : L string :=
  fun l =>
    match next_key keyList (presses l) with
    | Some (k, ks') => Some (Ok k, set_presses ks' l)
    | None => None
    end.

(** The [while True] loop of [present_trial]; a pass consumes a key press,
    so fuel beyond the number of presses left is never used. *)
Fixpoint present_trial_loop (fuel : nat) (nr_repetitions : nat) : L (string * nat) :=
  match fuel with
  | O => fun _ => None
  | S fuel' =>
      response_key <~ waitKeys ["left"; "down"; "right"; "r"] ;;
      if (response_key =? "r")%string
      then present_trial_loop fuel' (nr_repetitions + 1)
      else retL (response_key, nr_repetitions)
  end.

Definition present_trial : L (string * nat) :=
  fun l => present_trial_loop (S (List.length (presses l))) 0 l.

(** The [for] loop of [run_trial_phase] with its [break]; the result is
    [processed_stimuli]. *)
Fixpoint trial_loop (phase : string) (participant_info : ParticipantInfo)
    (nobracket_pos_label bracket_pos_label : string)
    (output_filename : path) (start_time : timestamp)
    (stimuli_files : list string) (trial_counter : nat) (processed_stimuli : list string)
  : L (list string) :=
  match stimuli_files with
  | [] => retL processed_stimuli
  | stimulus_file :: stimuli_files' =>
      stimulus <~ in_world (lift (extract_filename_info stimulus_file)) ;;
      answer <~ present_trial ;;
      end_time <~ time_time ;;
      in_world
        (csv_append output_filename
           [trial_data participant_info trial_counter phase (fst answer)
              nobracket_pos_label bracket_pos_label stimulus_file (snd answer) stimulus
              (strftime_HMS start_time) (strftime_HMS end_time)
              (format_duration start_time end_time)]) ~;;
      keys <~ waitKeys ["return"; "escape"] ;;
      if (keys =? "escape")%string then
        if (phase =? "practice")%string then
          waitKeys ["return"] ~;;
          print_notice MovingToTestPhase ~;;
          retL (processed_stimuli ++ [stimulus_file])
        else
          print_notice ExperimentPaused ~;;
          retL (processed_stimuli ++ [stimulus_file])
      else
        trial_loop phase participant_info nobracket_pos_label bracket_pos_label
                   output_filename start_time
                   stimuli_files' (trial_counter + 1) (processed_stimuli ++ [stimulus_file])
  end.

Definition run_trial_phase (stimuli_files : list string) (phase : string)
    (participant_info : ParticipantInfo) (stimuli_path : path)
    (nobracket_pos_label bracket_pos_label : string) (progress_file_path : path)
  : L unit :=
  labeled_stimuli <~ in_world (load_progress progress_file_path) ;;
  let stimuli_files :=
    filter (fun file => negb (str_in file labeled_stimuli)) stimuli_files in
  let subj_path_results := ["results"; labeler participant_info] in
  found <~ in_world (exists_ subj_path_results) ;;
  (if negb found then in_world (os_makedirs_new subj_path_results) else retL tt) ~;;
  start_time <~ time_time ;;
  output_filename <~ in_world (get_output_file_path (labeler participant_info)) ;;
  file_exists <~ in_world (exists_ output_filename) ;;
  in_world (csv_append output_filename (if negb file_exists then [headers] else [])) ~;;
  processed_stimuli <~
    trial_loop phase participant_info nobracket_pos_label bracket_pos_label
               output_filename start_time stimuli_files 1 [] ;;
  in_world (csv_append progress_file_path
              (map (fun stimulus_file => [stimulus_file]) processed_stimuli)).

(** What waiting for a key leaves alone. *)
Definition only_keys_used (l l' : Lab) : Prop :=
  world l' = world l /\ clock l' = clock l /\ clock_reads l' = clock_reads l /\
  printed l' = printed l.

(** *** Scripted participants

    An answer is the number of times the recording is repeated and the
    response key.  In a session that follows a script the participant
    presses [return] after every trial but the last, and after the last
    trial [return], or [escape] to stop (in the practice phase followed by
    the [return] that confirms the move to the test phase). *)



(** The line printed when the participant stops with [escape]. *)
Definition stop_notice (phase : string) : notice :=
  if (phase =? "practice")%string then MovingToTestPhase else ExperimentPaused.




End TrialRunner.

Arguments Lab : clear implicits.
Arguments L : clear implicits.


(** ** Predicates of the statements *)

(** No attribute value occurs in [l] more often than its cap allows. *)
Definition caps_respected (l : list Stimulus) : Prop :=
  forall v,
    Py.sum_bool (fun stim => (condition stim =? v)%string) l <= 4 /\
    Py.sum_bool (fun stim => (name_stim stim =? v)%string) l <= 3 /\
    Py.sum_bool (fun stim => (speaker stim =? v)%string) l <= 3 /\
    Py.sum_bool (fun stim => (stimulus_origin stim =? v)%string) l <= 4.

(** The rows of the file at [p]; none when there is no file. *)
Definition file_rows (p : path) (n : node) : csv_rows :=
  match lookup p n with
  | Some (File rows) => rows
  | _ => []
  end.

(** Where [get_output_file_path] puts the results of a labeler. *)
Definition output_file_path (participant_info : ParticipantInfo) : path :=
  ["results"; labeler participant_info; (labeler participant_info ++ "_results.csv")%string].

(** From world [w] to world [w'] the file at [p] has grown by [rows], and
    nothing else has changed but directories on the way to [p]. *)
Definition grown_by (p : path) (rows : csv_rows) (w w' : World) : Prop :=
  rng w' = rng w /\ stdout w' = stdout w /\
  file_rows p (fs w') = file_rows p (fs w) ++ rows /\
  (forall q, (forall r, p <> q ++ r) -> lookup q (fs w') = lookup q (fs w)).

(** The number of segments [extract_filename_info] indexes into, by family. *)
Definition segments_needed (file : string) : nat :=
  if Py.contains "single" file then 5
  else if Py.contains "gating" file then 4
  else 7.

(** ** Example data *)

Definition example_record (k : string) (cond : string) : Stimulus :=
  mkStimulus ("exp_spk" ++ k ++ "_" ++ cond ++ ".wav") "exp" ("spk" ++ k) k
             ("origin" ++ k) ("name" ++ k) cond.

Definition empty_world : World := mkWorld (Dir []) (mkRng (fun n => 3 * n + 1) 0) [].

Definition example_info : ParticipantInfo :=
  mkParticipantInfo "labeling_experiment" "2024-05-02 10:15" "L01".

Definition example_fs : node :=
  Dir [("stimuli",
        Dir [("test",
              Dir [("expA_spk1_o1_o2_o3_o4_3_wordA_cond1.wav", File []);
                   ("spk2", Dir [("expA_spk2_o5_o6_o7_o8_4_wordB_cond2.wav", File []);
                                 ("notes.txt", File [])]);
                   ("expA_spk3_o1_o2_o3_o9_5_wordC_cond1.wav", File [])]);
             ("practice",
              Dir [("expA_spk1_o1_o2_o3_o4_1_wordP_cond1.wav", File []);
                   ("expA_spk2_o1_o2_o3_o4_2_wordQ_cond2.wav", File [])])]);
       ("pics", Dir [])].

Definition example_world : World := mkWorld example_fs (mkRng (fun n => 2 * n) 0) [].

(** The same installation after one practice trial was completed. *)
Definition practice_resumed_world : World :=
  mkWorld
    (Dir [("stimuli",
           Dir [("practice",
                 Dir [("expA_spk1_o1_o2_o3_o4_1_wordP_cond1.wav", File []);
                      ("expA_spk2_o1_o2_o3_o4_2_wordQ_cond2.wav", File [])])]);
          ("results",
           Dir [("L01",
                 Dir [("L01_practice_progress.csv",
                       File [["expA_spk1_o1_o2_o3_o4_1_wordP_cond1.wav"]])])])])
    (mkRng (fun n => 2 * n) 0) [].

(** An installation with the three required directories and nothing else. *)
Definition required_only_world : World :=
  mkWorld (Dir [("stimuli", Dir [("test", Dir []); ("practice", Dir [])]); ("pics", Dir [])])
          (mkRng (fun n => n) 0) [].

(** An installation whose order file was written with a header row. *)
Definition order_with_header_world : World :=
  mkWorld
    (Dir [("stimuli", Dir [("test", Dir [])]);
          ("randomization_lists",
           Dir [("L01",
                 Dir [("test_randomized_stimuli.csv",
                       File [["filename"];
                             ["expA_spk3_o1_o2_o3_o9_5_wordC_cond1.wav"];
                             ["expA_spk1_o1_o2_o3_o4_3_wordA_cond1.wav"]])])])])
    (mkRng (fun n => n) 0) [].

(** A stray recording with a short name among the test stimuli. *)
Definition stray_file_world : World :=
  mkWorld
    (Dir [("stimuli",
           Dir [("test",
                 Dir [("expA_spk1_o1_o2_o3_o4_3_wordA_cond1.wav", File []);
                      ("beep.wav", File [])])])])
    (mkRng (fun n => n) 0) [].

(** The installation after [load_and_randomize] has run for the practice
    phase of labeler [L01]. *)
Definition session_world : World :=
  mkWorld
    (Dir [("stimuli",
           Dir [("test",
                 Dir [("expA_spk1_o1_o2_o3_o4_3_wordA_cond1.wav", File []);
                      ("spk2", Dir [("expA_spk2_o5_o6_o7_o8_4_wordB_cond2.wav", File []);
                                    ("notes.txt", File [])]);
                      ("expA_spk3_o1_o2_o3_o9_5_wordC_cond1.wav", File [])]);
                ("practice",
                 Dir [("expA_spk1_o1_o2_o3_o4_1_wordP_cond1.wav", File []);
                      ("expA_spk2_o1_o2_o3_o4_2_wordQ_cond2.wav", File [])])]);
          ("pics", Dir []);
          ("results", Dir [("L01", Dir [])])])
    (mkRng (fun n => 2 * n) 0) [].


(** A clock that is read every ten seconds, and the rendering of its
    readings as plain numbers. *)
Definition example_clock (n : nat) : nat := 10 * n.

Definition example_duration (start_time end_time : nat) : string :=
  str_of_nat (end_time - start_time).

(** A participant in front of [session_world], about to press [keys]. *)
Definition example_lab (keys : list string) : Lab nat :=
  mkLab session_world keys example_clock 0 [].

(** * Properties *)

Ltac split_NoDup :=
  repeat match goal with
         | H : NoDup (_ :: _) |- _ => apply NoDup_cons_iff in H; destruct H
         end.

(** ** The string operations on examples *)

Example split_underscores :
  Py.split "a__b_" "_" = ["a"; ""; "b"; ""] /\ Py.split "" "_" = [""] /\
  Py.split "_a" "_" = [""; "a"] /\ Py.split "abc" "_" = ["abc"].
Proof. repeat split. Qed.

Example split_suffix :
  Py.split "cond1.wav" ".wav" = ["cond1"; ""] /\
  Py.split "a.wav.wavb" ".wav" = ["a"; ""; "b"] /\
  Py.split "cond1" ".wav" = ["cond1"] /\
  strip_wav "wordA_cond1.wav" = Ok "wordA_cond1".
Proof. repeat split. Qed.

Example contains_endswith :
  Py.contains "single" "e_s_single_x_1_w_c.wav" = true /\
  Py.contains "gating" "e_s_single_x_1_w_c.wav" = false /\
  Py.endswith "a.wav" ".wav" = true /\ Py.endswith "wav" ".wav" = false /\
  Py.endswith "a.wav.txt" ".wav" = false.
Proof. repeat split. Qed.

Example getitem_indices :
  Py.getitem ["a"; "b"; "c"] (-1) = Ok "c" /\ Py.getitem ["a"; "b"; "c"] 2 = Ok "c" /\
  Py.getitem ["a"; "b"; "c"] 3 = Raise IndexError /\
  Py.getitem (@nil string) (-1) = Raise IndexError /\
  Py.slice ["a"; "b"; "c"] 2 6 = ["c"] /\ Py.slice_from ["a"; "b"] 7 = [].
Proof. repeat split. Qed.

(** Identifiers of the other two families, and one that is too short. *)
Example extract_families :
  extract_filename_info "expB_spk2_single_x_7_wordA_nob.wav"
  = Ok (mkStimulus "expB_spk2_single_x_7_wordA_nob.wav" "expB" "spk2" "7"
          "single_x" "wordA_nob" "nob") /\
  extract_filename_info "gating_spk2_g3_7_wordA_bra.wav"
  = Ok (mkStimulus "gating_spk2_g3_7_wordA_bra.wav" "gating" "spk2" "7"
          "gating_g3" "wordA_bra" "bra") /\
  extract_filename_info "expA_spk1_word.wav" = Raise IndexError.
Proof. repeat split. Qed.

(** ** Lists, swaps and the shuffle *)

Section ListFacts.
Context {A : Type}.

Lemma list_set_exchange (l : list A) j a b :
  nth_error l j = Some b -> Permutation (a :: l) (b :: list_set l j a).
Proof.
  revert j; induction l as [|x l IH]; intros [|j] H; simpl in *; try discriminate.
  - injection H as ->. apply perm_swap.
  - rewrite perm_swap. rewrite (perm_swap x b). apply perm_skip. now apply IH.
Qed.

Lemma swap_Permutation (x : list A) i j : Permutation x (swap x i j).
Proof.
  unfold swap.
  destruct (nth_error x i) as [a|] eqn:Hi; [|reflexivity].
  destruct (nth_error x j) as [b|] eqn:Hj; [|reflexivity].
  revert i j Hi Hj; induction x as [|y x IH]; intros [|i] [|j] Hi Hj;
    simpl in *; try discriminate.
  - injection Hi as ->. injection Hj as ->. reflexivity.
  - injection Hi as ->. now apply list_set_exchange.
  - injection Hj as ->. now apply list_set_exchange.
  - apply perm_skip. now apply IH.
Qed.

Lemma shuffle_from_Permutation i (x : list A) g :
  Permutation x (fst (shuffle_from i x g)).
Proof.
  revert x g; induction i as [|i IH]; intros x g; simpl.
  - reflexivity.
  - etransitivity; [apply (swap_Permutation x (S i) (draws g (consumed g) mod S (S i)))|].
    apply IH.
Qed.

Lemma shuffle_Permutation (x : list A) g : Permutation x (fst (shuffle x g)).
Proof. apply shuffle_from_Permutation. Qed.

Lemma shuffle_from_consumed i (x : list A) g :
  consumed (snd (shuffle_from i x g)) = consumed g + i.
Proof.
  revert x g; induction i as [|i IH]; intros x g; simpl.
  - lia.
  - rewrite IH. simpl. lia.
Qed.

End ListFacts.

Lemma random_shuffle_spec {A} (x : list A) w :
  exists x' g', random_shuffle x w = Some (Ok x', set_rng g' w) /\ Permutation x x'.
Proof.
  unfold random_shuffle.
  pose proof (shuffle_Permutation x (rng w)) as HP.
  destruct (shuffle x (rng w)) as [x' g']. simpl in HP. eauto.
Qed.

(** ** Stimulus records *)

Lemma Stimulus_eqb_eq a b : Stimulus_eqb a b = true <-> a = b.
Proof.
  unfold Stimulus_eqb. rewrite !andb_true_iff, !String.eqb_eq.
  destruct a, b; simpl. split.
  - intros [[[[[[-> ->] ->] ->] ->] ->] ->]. reflexivity.
  - intros H. injection H as -> -> -> -> -> -> ->. repeat split.
Qed.

Lemma Stimulus_eqb_refl a : Stimulus_eqb a a = true.
Proof. now apply Stimulus_eqb_eq. Qed.

Lemma list_remove_In x l :
  In x l ->
  exists l', list_remove x l = Ok l' /\ Permutation l (x :: l') /\
             List.length l = S (List.length l').
Proof.
  induction l as [|y l IH]; simpl; [tauto|]. intros Hin.
  destruct (Stimulus_eqb y x) eqn:E.
  - apply Stimulus_eqb_eq in E as ->. exists l. repeat split; reflexivity.
  - destruct Hin as [->|Hin]; [now rewrite Stimulus_eqb_refl in E|].
    destruct (IH Hin) as (l' & -> & HP & HL). simpl.
    exists (y :: l'). repeat split.
    + rewrite perm_swap. now apply perm_skip.
    + simpl. now rewrite HL.
Qed.

Lemma list_remove_head x l : list_remove x (x :: l) = Ok l.
Proof. simpl. now rewrite Stimulus_eqb_refl. Qed.

(** ** One pass of the loop *)

Lemma loop_body_select pool out s w :
  find (within_caps out) pool = Some s ->
  exists pool',
    list_remove s pool = Ok pool' /\
    loop_body pool out w = Some (Ok (Placed pool' (out ++ [s])), w) /\
    Permutation pool (s :: pool') /\ List.length pool = S (List.length pool').
Proof.
  intros Hf. unfold loop_body. rewrite Hf.
  destruct (find_some _ _ Hf) as [Hin _].
  destruct (list_remove_In s pool Hin) as (pool' & Hr & HP & HL).
  exists pool'. unfold bind, lift, ret. rewrite Hr. auto.
Qed.

Lemma loop_body_flush pool out w :
  find (within_caps out) pool = None ->
  loop_body pool out w
  = Some (Ok (Flushed (out ++ pool)), add_stdout WarnUnsatisfiable w).
Proof. intros Hf. unfold loop_body. now rewrite Hf. Qed.

Lemma while_loop_nil fuel out w : while_loop fuel [] out w = Some (Ok out, w).
Proof. destruct fuel; reflexivity. Qed.

Lemma while_loop_step fuel s pool out w :
  while_loop (S fuel) (s :: pool) out w
  = match loop_body (s :: pool) out w with
    | Some (Ok (Placed pool' out'), w') => while_loop fuel pool' out' w'
    | Some (Ok (Flushed out'), w') => Some (Ok out', w')
    | Some (Raise e, w') => Some (Raise e, w')
    | None => None
    end.
Proof.
  simpl. unfold bind at 1.
  destruct (loop_body (s :: pool) out w) as [[[[]|] ?]|]; reflexivity.
Qed.

(** The number of passes the loop makes from a given pool and output: it
    is the least fuel on which the loop finishes. *)
Lemma while_loop_passes pool out w :
  exists n r w',
    n <= List.length pool /\
    (forall fuel, n <= fuel -> while_loop fuel pool out w = Some (Ok r, w')) /\
    (forall fuel, fuel < n -> while_loop fuel pool out w = None) /\
    Permutation (out ++ pool) r /\
    fs w' = fs w /\ rng w' = rng w /\
    (stdout w' = stdout w \/ stdout w' = stdout w ++ [WarnUnsatisfiable]).
Proof.
  remember (List.length pool) as k eqn:Hk.
  revert pool out w Hk. induction k as [|k IH]; intros pool out w Hk.
  - destruct pool; [|discriminate]. exists 0, out, w.
    repeat split; auto.
    + intros. apply while_loop_nil.
    + intros; lia.
    + now rewrite app_nil_r.
  - destruct pool as [|s pool]; [discriminate|].
    destruct (find (within_caps out) (s :: pool)) as [t|] eqn:Hf.
    + destruct (loop_body_select _ _ _ w Hf) as (pool' & _ & Hb & HP & HL).
      assert (Hk' : k = List.length pool') by (simpl in *; lia).
      destruct (IH pool' (out ++ [t]) w Hk') as (n & r & w' & Hn & Hok & Hno & HPr & H1 & H2 & H3).
      exists (S n), r, w'. repeat split; auto.
      * lia.
      * intros [|fuel] Hfu; [lia|]. rewrite while_loop_step, Hb. apply Hok. lia.
      * intros [|fuel] Hfu; [reflexivity|]. rewrite while_loop_step, Hb. apply Hno. lia.
      * rewrite <- HPr, <- app_assoc. simpl. apply Permutation_app_head.
        exact HP.
    + exists 1, (out ++ s :: pool), (add_stdout WarnUnsatisfiable w).
      repeat split; auto.
      * lia.
      * intros [|fuel] Hfu; [lia|]. now rewrite while_loop_step, loop_body_flush.
      * intros [|fuel] Hfu; [reflexivity|lia].
Qed.

Lemma while_loop_enough pool out w :
  exists r w',
    while_loop (List.length pool) pool out w = Some (Ok r, w') /\
    Permutation (out ++ pool) r /\
    fs w' = fs w /\ rng w' = rng w /\
    (stdout w' = stdout w \/ stdout w' = stdout w ++ [WarnUnsatisfiable]).
Proof.
  destruct (while_loop_passes pool out w) as (n & r & w' & Hn & Hok & _ & H).
  exists r, w'. split; [now apply Hok|exact H].
Qed.

Lemma constraint_randomization_spec data w :
  exists out w',
    constraint_randomization data w = Some (Ok out, w') /\
    Permutation data out /\ fs w' = fs w.
Proof.
  unfold constraint_randomization, bind.
  destruct (random_shuffle_spec data w) as (pool & g & -> & HP).
  destruct (while_loop_enough pool [] (set_rng g w)) as (r & w' & -> & HPr & Hfs & _).
  exists r, w'. repeat split; auto.
  now rewrite HP.
Qed.

(** ** Attribute counts *)

Section Counts.
Variable f : Stimulus -> string.

Lemma sum_bool_le_length (v : string) (l : list Stimulus) :
  Py.sum_bool (fun stim => (f stim =? v)%string) l <= List.length l.
Proof. unfold Py.sum_bool. apply filter_length_le. Qed.

Lemma sum_bool_absent (v : string) (l : list Stimulus) :
  ~ In v (map f l) -> Py.sum_bool (fun stim => (f stim =? v)%string) l = 0.
Proof.
  unfold Py.sum_bool. induction l as [|x l IH]; simpl; intros Hn; [reflexivity|].
  destruct (String.eqb_spec (f x) v) as [E|E].
  - exfalso. apply Hn. now left.
  - apply IH. intros Hin. apply Hn. now right.
Qed.

Lemma sum_bool_all (v : string) (l : list Stimulus) :
  (forall stim, In stim l -> f stim = v) ->
  Py.sum_bool (fun stim => (f stim =? v)%string) l = List.length l.
Proof.
  unfold Py.sum_bool. induction l as [|x l IH]; simpl; intros Hall; [reflexivity|].
  rewrite (proj2 (String.eqb_eq (f x) v)) by (apply Hall; now left).
  simpl. f_equal. apply IH. intros; apply Hall; now right.
Qed.

Lemma sum_bool_NoDup (v : string) (l : list Stimulus) :
  NoDup (map f l) -> Py.sum_bool (fun stim => (f stim =? v)%string) l <= 1.
Proof.
  induction l as [|x l IH]; simpl; intros Hnd; [unfold Py.sum_bool; simpl; lia|].
  inversion Hnd as [|? ? Hx Hl]; subst.
  unfold Py.sum_bool in *. simpl.
  destruct (String.eqb_spec (f x) v) as [E|E].
  - subst v. simpl. pose proof (sum_bool_absent (f x) l Hx) as H0.
    unfold Py.sum_bool in H0. rewrite H0. lia.
  - now apply IH.
Qed.

Lemma sum_bool_firstn (v : string) k (l : list Stimulus) :
  Py.sum_bool (fun stim => (f stim =? v)%string) (firstn k l)
  <= Py.sum_bool (fun stim => (f stim =? v)%string) l.
Proof.
  unfold Py.sum_bool. rewrite <- (firstn_skipn k l) at 2.
  rewrite filter_app, length_app. lia.
Qed.

End Counts.

Lemma within_caps_iff out s :
  within_caps out s = true <->
  Py.sum_bool (fun stim => (condition stim =? condition s)%string) out < 4 /\
  Py.sum_bool (fun stim => (name_stim stim =? name_stim s)%string) out < 3 /\
  Py.sum_bool (fun stim => (speaker stim =? speaker s)%string) out < 3 /\
  Py.sum_bool (fun stim => (stimulus_origin stim =? stimulus_origin s)%string) out < 4.
Proof.
  unfold within_caps. rewrite !andb_true_iff, !Nat.ltb_lt. tauto.
Qed.

Lemma within_caps_fresh out s :
  ~ In (condition s) (map condition out) ->
  ~ In (name_stim s) (map name_stim out) ->
  ~ In (speaker s) (map speaker out) ->
  ~ In (stimulus_origin s) (map stimulus_origin out) ->
  within_caps out s = true.
Proof.
  intros Hc Hn Hs Ho. apply within_caps_iff.
  rewrite (sum_bool_absent condition), (sum_bool_absent name_stim),
    (sum_bool_absent speaker), (sum_bool_absent stimulus_origin) by assumption.
  lia.
Qed.

Lemma within_caps_few out s :
  List.length out < 4 ->
  ~ In (name_stim s) (map name_stim out) ->
  ~ In (speaker s) (map speaker out) ->
  within_caps out s = true.
Proof.
  intros Hl Hn Hs. apply within_caps_iff.
  rewrite (sum_bool_absent name_stim), (sum_bool_absent speaker) by assumption.
  pose proof (sum_bool_le_length condition (condition s) out).
  pose proof (sum_bool_le_length stimulus_origin (stimulus_origin s) out).
  lia.
Qed.

Lemma within_caps_condition_full out s :
  4 <= List.length out ->
  (forall stim, In stim out -> condition stim = condition s) ->
  within_caps out s = false.
Proof.
  intros Hl Hall. unfold within_caps.
  rewrite (sum_bool_all condition) by assumption.
  destruct (Nat.ltb_spec (List.length out) 4); [lia|reflexivity].
Qed.

Lemma loop_body_head s pool out w :
  within_caps out s = true ->
  loop_body (s :: pool) out w = Some (Ok (Placed pool (out ++ [s])), w).
Proof.
  intros Hc. unfold loop_body. cbn [find]. rewrite Hc.
  unfold bind, lift, ret. now rewrite list_remove_head.
Qed.

Lemma find_none_iff {A} (p : A -> bool) l :
  find p l = None <-> forall x, In x l -> p x = false.
Proof.
  split.
  - apply find_none.
  - induction l as [|a l IH]; simpl; intros H; [reflexivity|].
    rewrite (H a) by now left. apply IH. intros; apply H; now right.
Qed.

(** With pairwise distinct attribute values nothing is ever rejected: the
    loop moves the pool to the output front to back and prints nothing. *)
Lemma while_loop_distinct pool out w :
  NoDup (map condition (out ++ pool)) ->
  NoDup (map name_stim (out ++ pool)) ->
  NoDup (map speaker (out ++ pool)) ->
  NoDup (map stimulus_origin (out ++ pool)) ->
  while_loop (List.length pool) pool out w = Some (Ok (out ++ pool), w).
Proof.
  revert out; induction pool as [|s pool IH]; intros out Hc Hn Hs Ho.
  - rewrite app_nil_r. apply while_loop_nil.
  - change (List.length (s :: pool)) with (S (List.length pool)).
    rewrite while_loop_step, loop_body_head.
    + replace (out ++ s :: pool) with ((out ++ [s]) ++ pool) in *
        by (rewrite <- app_assoc; reflexivity).
      now apply IH.
    + rewrite map_app in Hc, Hn, Hs, Ho. simpl in Hc, Hn, Hs, Ho.
      apply NoDup_remove_2 in Hc, Hn, Hs, Ho.
      apply within_caps_fresh; intros Hin; [apply Hc|apply Hn|apply Hs|apply Ho];
        apply in_or_app; now left.
Qed.

Lemma loop_body_placed_inv pool out pool' out' w1 w2 :
  loop_body pool out w1 = Some (Ok (Placed pool' out'), w2) ->
  exists s,
    find (within_caps out) pool = Some s /\ In s pool /\ within_caps out s = true /\
    list_remove s pool = Ok pool' /\ out' = out ++ [s] /\ w2 = w1.
Proof.
  intros Hb. destruct (find (within_caps out) pool) as [s|] eqn:Hf.
  - destruct (loop_body_select _ _ _ w1 Hf) as (q & Hr & Hb' & _).
    rewrite Hb' in Hb. injection Hb as <- <- <-.
    destruct (find_some _ _ Hf) as [Hin Hc]. exists s. auto 10.
  - rewrite (loop_body_flush _ _ w1 Hf) in Hb. discriminate.
Qed.

(** ** The randomizer: permutation, termination, fallback, caps *)

(** C3. For every list of stimulus records, [constraint_randomization]
    returns normally and its result is a permutation of the input: the same
    length, and every record as many times as in the input. *)
Theorem constraint_randomization_permutation (stimulus_data : list Stimulus) (w : World) :
  exists randomized_stimuli w',
    constraint_randomization stimulus_data w = Some (Ok randomized_stimuli, w') /\
    Permutation stimulus_data randomized_stimuli /\
    List.length randomized_stimuli = List.length stimulus_data /\
    forall r, count_occ Stimulus_eq_dec randomized_stimuli r
              = count_occ Stimulus_eq_dec stimulus_data r.
Proof.
  destruct (constraint_randomization_spec stimulus_data w) as (out & w' & Hrun & HP & _).
  exists out, w'. repeat split; auto.
  - symmetry. now apply Permutation_length.
  - intros r. symmetry. revert r. now apply Permutation_count_occ.
Qed.

(** C8. [constraint_randomization] terminates on every input.  A pass
    through the body of the [while] loop over a non-empty pool either
    removes exactly one record from the pool and appends it to the output,
    or appends the whole pool and leaves the loop; the loop finishes after
    [n] passes for some [n] not larger than the size of the pool ([n] is the
    least fuel on which [while_loop] returns). *)
Theorem constraint_randomization_terminates :
  (forall s pool out w,
     (exists t pool',
        list_remove t (s :: pool) = Ok pool' /\
        S (List.length pool') = List.length (s :: pool) /\
        loop_body (s :: pool) out w = Some (Ok (Placed pool' (out ++ [t])), w)) \/
     loop_body (s :: pool) out w
     = Some (Ok (Flushed (out ++ s :: pool)), add_stdout WarnUnsatisfiable w)) /\
  (forall pool out w,
     exists n r w',
       n <= List.length pool /\
       (forall fuel, n <= fuel -> while_loop fuel pool out w = Some (Ok r, w')) /\
       (forall fuel, fuel < n -> while_loop fuel pool out w = None)) /\
  (forall stimulus_data w,
     exists randomized_stimuli w',
       constraint_randomization stimulus_data w = Some (Ok randomized_stimuli, w')).
Proof.
  split; [|split].
  - intros s pool out w.
    destruct (find (within_caps out) (s :: pool)) as [t|] eqn:Hf.
    + left. destruct (loop_body_select _ _ _ w Hf) as (pool' & Hr & Hb & _ & HL).
      exists t, pool'. auto.
    + right. now apply loop_body_flush.
  - intros pool out w.
    destruct (while_loop_passes pool out w) as (n & r & w' & Hn & Hok & Hno & _).
    exists n, r, w'. auto.
  - intros data w.
    destruct (constraint_randomization_spec data w) as (out & w' & Hrun & _).
    eauto.
Qed.

(** C4. Five records with one common condition and pairwise distinct
    speakers, stimulus names and origins: whatever the shuffle produced,
    the first four records of the pool are placed by the selection path,
    the fifth is rejected by the condition cap (four placed records carry
    its condition) and is appended by the fallback path; the result has the
    five input records.  In general, when no record of a non-empty pool
    passes the caps against the current output, the whole pool is appended
    in its current order and the loop ends. *)
Theorem fallback_on_fifth_same_condition (a b c d e : Stimulus) (w : World) :
  (forall s, In s [a; b; c; d; e] -> condition s = condition a) ->
  NoDup (map speaker [a; b; c; d; e]) ->
  NoDup (map name_stim [a; b; c; d; e]) ->
  NoDup (map stimulus_origin [a; b; c; d; e]) ->
  (exists p1 p2 p3 p4 p5 g,
     random_shuffle [a; b; c; d; e] w = Some (Ok [p1; p2; p3; p4; p5], set_rng g w) /\
     loop_body [p1; p2; p3; p4; p5] [] (set_rng g w)
     = Some (Ok (Placed [p2; p3; p4; p5] [p1]), set_rng g w) /\
     loop_body [p2; p3; p4; p5] [p1] (set_rng g w)
     = Some (Ok (Placed [p3; p4; p5] [p1; p2]), set_rng g w) /\
     loop_body [p3; p4; p5] [p1; p2] (set_rng g w)
     = Some (Ok (Placed [p4; p5] [p1; p2; p3]), set_rng g w) /\
     loop_body [p4; p5] [p1; p2; p3] (set_rng g w)
     = Some (Ok (Placed [p5] [p1; p2; p3; p4]), set_rng g w) /\
     Py.sum_bool (fun stim => (condition stim =? condition p5)%string) [p1; p2; p3; p4] = 4 /\
     within_caps [p1; p2; p3; p4] p5 = false /\
     loop_body [p5] [p1; p2; p3; p4] (set_rng g w)
     = Some (Ok (Flushed [p1; p2; p3; p4; p5]),
             add_stdout WarnUnsatisfiable (set_rng g w)) /\
     constraint_randomization [a; b; c; d; e] w
     = Some (Ok [p1; p2; p3; p4; p5], add_stdout WarnUnsatisfiable (set_rng g w)) /\
     Permutation [a; b; c; d; e] [p1; p2; p3; p4; p5]) /\
  (forall pool out w0,
     pool <> [] ->
     (forall s, In s pool -> within_caps out s = false) ->
     loop_body pool out w0
     = Some (Ok (Flushed (out ++ pool)), add_stdout WarnUnsatisfiable w0) /\
     forall fuel,
       while_loop (S fuel) pool out w0
       = Some (Ok (out ++ pool), add_stdout WarnUnsatisfiable w0)).
Proof.
  intros Hcond Hspk Hname Horig. split.
  - destruct (random_shuffle_spec [a; b; c; d; e] w) as (pool & g & Hsh & HP).
    pose proof (Permutation_length HP) as HL.
    destruct pool as [|p1 [|p2 [|p3 [|p4 [|p5 [|p6 pool]]]]]]; try discriminate HL.
    assert (Hcond' : forall s, In s [p1; p2; p3; p4; p5] -> condition s = condition a).
    { intros s Hs. apply Hcond. now apply (Permutation_in _ (Permutation_sym HP)). }
    apply (Permutation_NoDup (Permutation_map speaker HP)) in Hspk.
    apply (Permutation_NoDup (Permutation_map name_stim HP)) in Hname.
    clear Horig Hcond. simpl in Hspk, Hname. split_NoDup.
    assert (B1 : loop_body [p1; p2; p3; p4; p5] [] (set_rng g w)
                 = Some (Ok (Placed [p2; p3; p4; p5] [p1]), set_rng g w)).
    { apply (loop_body_head p1 _ []). reflexivity. }
    assert (B2 : loop_body [p2; p3; p4; p5] [p1] (set_rng g w)
                 = Some (Ok (Placed [p3; p4; p5] [p1; p2]), set_rng g w)).
    { apply (loop_body_head p2 _ [p1]).
      apply within_caps_few; simpl in *; [lia| |]; intuition auto. }
    assert (B3 : loop_body [p3; p4; p5] [p1; p2] (set_rng g w)
                 = Some (Ok (Placed [p4; p5] [p1; p2; p3]), set_rng g w)).
    { apply (loop_body_head p3 _ [p1; p2]).
      apply within_caps_few; simpl in *; [lia| |]; intuition auto. }
    assert (B4 : loop_body [p4; p5] [p1; p2; p3] (set_rng g w)
                 = Some (Ok (Placed [p5] [p1; p2; p3; p4]), set_rng g w)).
    { apply (loop_body_head p4 _ [p1; p2; p3]).
      apply within_caps_few; simpl in *; [lia| |]; intuition auto. }
    assert (Hall : forall stim, In stim [p1; p2; p3; p4] -> condition stim = condition p5).
    { intros stim Hin. rewrite (Hcond' p5) by (simpl; tauto).
      apply Hcond'. simpl in *. tauto. }
    assert (Hrej : within_caps [p1; p2; p3; p4] p5 = false).
    { apply within_caps_condition_full; [simpl; lia|exact Hall]. }
    assert (B5 : loop_body [p5] [p1; p2; p3; p4] (set_rng g w)
                 = Some (Ok (Flushed [p1; p2; p3; p4; p5]),
                         add_stdout WarnUnsatisfiable (set_rng g w))).
    { apply (loop_body_flush [p5] [p1; p2; p3; p4]). cbn [find]. now rewrite Hrej. }
    exists p1, p2, p3, p4, p5, g. repeat split; auto.
    + now apply (sum_bool_all condition).
    + unfold constraint_randomization, bind. rewrite Hsh.
      change (List.length [p1; p2; p3; p4; p5]) with 5.
      rewrite while_loop_step, B1, while_loop_step, B2, while_loop_step, B3,
        while_loop_step, B4, while_loop_step, B5. reflexivity.
  - intros pool out w0 Hne Hall.
    assert (Hf : find (within_caps out) pool = None) by now apply find_none_iff.
    split; [now apply loop_body_flush|].
    intros fuel. destruct pool as [|s pool]; [congruence|].
    now rewrite while_loop_step, loop_body_flush.
Qed.

(** C4 on five records that differ in everything but the condition. *)
Lemma fallback_on_fifth_same_condition_witness :
  let input := [example_record "1" "X"; example_record "2" "X"; example_record "3" "X";
                example_record "4" "X"; example_record "5" "X"] in
  NoDup (map speaker input) /\
  exists randomized_stimuli w',
    constraint_randomization input empty_world = Some (Ok randomized_stimuli, w') /\
    stdout w' = [WarnUnsatisfiable] /\
    Permutation input randomized_stimuli.
Proof.
  assert (Hs : NoDup (map speaker
            [example_record "1" "X"; example_record "2" "X"; example_record "3" "X";
             example_record "4" "X"; example_record "5" "X"])).
  { repeat constructor; simpl; intuition discriminate. }
  split; [exact Hs|].
  destruct (fallback_on_fifth_same_condition
              (example_record "1" "X") (example_record "2" "X") (example_record "3" "X")
              (example_record "4" "X") (example_record "5" "X") empty_world)
    as [(p1 & p2 & p3 & p4 & p5 & g & _ & _ & _ & _ & _ & _ & _ & _ & Hrun & HP) _].
  - intros s Hin. simpl in Hin. intuition (subst; reflexivity).
  - exact Hs.
  - repeat constructor; simpl; intuition discriminate.
  - repeat constructor; simpl; intuition discriminate.
  - exists [p1; p2; p3; p4; p5], (add_stdout WarnUnsatisfiable (set_rng g empty_world)).
    repeat split; assumption.
Defined.

(** C5. At most four records whose conditions, speakers, stimulus names
    and origins are pairwise distinct: every record is placed by the
    selection path (nothing is printed), and in every prefix of the result
    each condition occurs fewer than 4 times, each stimulus name and each
    speaker fewer than 3 times, each origin fewer than 4 times.  In any
    run, a record placed by the selection path is a record of the pool
    whose four counts in the output so far are below these caps. *)
Theorem caps_hold_on_every_prefix (stimulus_data : list Stimulus) (w : World) :
  List.length stimulus_data <= 4 ->
  NoDup (map condition stimulus_data) ->
  NoDup (map speaker stimulus_data) ->
  NoDup (map name_stim stimulus_data) ->
  NoDup (map stimulus_origin stimulus_data) ->
  (exists randomized_stimuli w',
     constraint_randomization stimulus_data w = Some (Ok randomized_stimuli, w') /\
     stdout w' = stdout w /\
     forall k v,
       Py.sum_bool (fun stim => (condition stim =? v)%string) (firstn k randomized_stimuli) < 4 /\
       Py.sum_bool (fun stim => (name_stim stim =? v)%string) (firstn k randomized_stimuli) < 3 /\
       Py.sum_bool (fun stim => (speaker stim =? v)%string) (firstn k randomized_stimuli) < 3 /\
       Py.sum_bool (fun stim => (stimulus_origin stim =? v)%string)
                   (firstn k randomized_stimuli) < 4) /\
  (forall pool out pool' out' w1 w2,
     loop_body pool out w1 = Some (Ok (Placed pool' out'), w2) ->
     exists stimulus,
       In stimulus pool /\ out' = out ++ [stimulus] /\
       Py.sum_bool (fun stim => (condition stim =? condition stimulus)%string) out < 4 /\
       Py.sum_bool (fun stim => (name_stim stim =? name_stim stimulus)%string) out < 3 /\
       Py.sum_bool (fun stim => (speaker stim =? speaker stimulus)%string) out < 3 /\
       Py.sum_bool (fun stim => (stimulus_origin stim =? stimulus_origin stimulus)%string)
                   out < 4).
Proof.
  intros _ Hc Hs Hn Ho. split.
  - destruct (random_shuffle_spec stimulus_data w) as (pool & g & Hsh & HP).
    apply (Permutation_NoDup (Permutation_map condition HP)) in Hc.
    apply (Permutation_NoDup (Permutation_map speaker HP)) in Hs.
    apply (Permutation_NoDup (Permutation_map name_stim HP)) in Hn.
    apply (Permutation_NoDup (Permutation_map stimulus_origin HP)) in Ho.
    exists pool, (set_rng g w). split; [|split; [reflexivity|]].
    + unfold constraint_randomization, bind. rewrite Hsh.
      now apply (while_loop_distinct pool []).
    + intros k v.
      pose proof (sum_bool_firstn condition v k pool).
      pose proof (sum_bool_firstn name_stim v k pool).
      pose proof (sum_bool_firstn speaker v k pool).
      pose proof (sum_bool_firstn stimulus_origin v k pool).
      pose proof (sum_bool_NoDup condition v pool Hc).
      pose proof (sum_bool_NoDup name_stim v pool Hn).
      pose proof (sum_bool_NoDup speaker v pool Hs).
      pose proof (sum_bool_NoDup stimulus_origin v pool Ho).
      lia.
  - intros pool out pool' out' w1 w2 Hb.
    destruct (loop_body_placed_inv _ _ _ _ _ _ Hb) as (s & _ & Hin & Hcaps & _ & -> & _).
    exists s. apply within_caps_iff in Hcaps. tauto.
Qed.

(** C5 on three records with pairwise distinct attributes. *)
Lemma caps_hold_on_every_prefix_witness :
  let input := [example_record "1" "A"; example_record "2" "B"; example_record "3" "C"] in
  List.length input <= 4 /\
  exists randomized_stimuli w',
    constraint_randomization input empty_world = Some (Ok randomized_stimuli, w') /\
    stdout w' = [] /\
    Py.sum_bool (fun stim => (condition stim =? "A")%string) (firstn 2 randomized_stimuli) < 4.
Proof.
  split; [simpl; lia|].
  destruct (caps_hold_on_every_prefix
              [example_record "1" "A"; example_record "2" "B"; example_record "3" "C"]
              empty_world)
    as [(out & w' & Hrun & Hout & Hcaps) _].
  - simpl; lia.
  - repeat constructor; simpl; intuition discriminate.
  - repeat constructor; simpl; intuition discriminate.
  - repeat constructor; simpl; intuition discriminate.
  - repeat constructor; simpl; intuition discriminate.
  - exists out, w'. repeat split; [exact Hrun|exact Hout|].
    exact (proj1 (Hcaps 2 "A")).
Defined.

(** ** The file system *)

Section Entries.
Implicit Types (es : list (string * node)) (c d : string) (v : node).

Lemma find_entry_app d es es' :
  find_entry d (es ++ es')
  = match find_entry d es with
    | Some x => Some x
    | None => find_entry d es'
    end.
Proof.
  induction es as [|[n x] es IH]; simpl; [reflexivity|].
  destruct (n =? d)%string; [reflexivity|exact IH].
Qed.

Lemma find_entry_set_same c v es : find_entry c (set_entry c v es) = Some v.
Proof.
  induction es as [|[n x] es IH]; simpl.
  - now rewrite String.eqb_refl.
  - destruct (n =? c)%string eqn:E; simpl; rewrite E; [reflexivity|exact IH].
Qed.

Lemma find_entry_set_other c d v es :
  c <> d -> find_entry d (set_entry c v es) = find_entry d es.
Proof.
  intros Hne. induction es as [|[n x] es IH]; simpl.
  - now rewrite (proj2 (String.eqb_neq c d) Hne).
  - destruct (n =? c)%string eqn:E; simpl.
    + apply String.eqb_eq in E as ->.
      now rewrite (proj2 (String.eqb_neq c d) Hne).
    + destruct (n =? d)%string; [reflexivity|exact IH].
Qed.

Lemma set_entry_same c v es : find_entry c es = Some v -> set_entry c v es = es.
Proof.
  induction es as [|[n x] es IH]; simpl; [discriminate|].
  destruct (n =? c)%string.
  - now intros [= ->].
  - intros H. now rewrite IH.
Qed.

End Entries.

Lemma lookup_cons c q es :
  lookup (c :: q) (Dir es)
  = match find_entry c es with
    | Some child => lookup q child
    | None => None
    end.
Proof. reflexivity. Qed.

Lemma lookup_new_dirs_self p : exists es, lookup p (new_dirs p) = Some (Dir es).
Proof.
  induction p as [|c p IH]; simpl.
  - now exists [].
  - now rewrite String.eqb_refl.
Qed.

Lemma lookup_new_dirs q p :
  lookup q (new_dirs p) = None \/ exists p', lookup q (new_dirs p) = Some (new_dirs p').
Proof.
  revert q; induction p as [|c p IH]; intros [|d q]; simpl.
  - right. now exists [].
  - now left.
  - right. now exists (c :: p).
  - destruct (c =? d)%string; [apply IH|now left].
Qed.

Lemma lookup_new_dirs_other q p :
  (forall r, p <> q ++ r) -> lookup q (new_dirs p) = None.
Proof.
  revert q; induction p as [|c p IH]; intros [|d q] Hne; simpl.
  - now destruct (Hne []).
  - reflexivity.
  - now destruct (Hne (c :: p)).
  - destruct (String.eqb_spec c d) as [->|]; [|reflexivity].
    apply IH. intros r ->. now apply (Hne r).
Qed.

Lemma makedirs_File p rows : exists e, makedirs_at p (File rows) = Raise e.
Proof. destruct p; simpl; eauto. Qed.

Lemma makedirs_Dir_inv p es n' :
  makedirs_at p (Dir es) = Ok n' ->
  match p with
  | [] => n' = Dir es
  | c :: p' =>
      match find_entry c es with
      | Some child =>
          exists child', makedirs_at p' child = Ok child' /\
                         n' = Dir (set_entry c child' es)
      | None => n' = Dir (es ++ [(c, new_dirs p')])
      end
  end.
Proof.
  destruct p as [|c p']; simpl.
  - now intros [= <-].
  - destruct (find_entry c es) as [child|].
    + destruct (makedirs_at p' child) as [child'|e]; simpl; [|discriminate].
      intros [= <-]. eauto.
    + now intros [= <-].
Qed.

Lemma makedirs_result_Dir p n n' : makedirs_at p n = Ok n' -> exists es, n' = Dir es.
Proof.
  destruct n as [rows|es]; intros H.
  - destruct (makedirs_File p rows) as [e He]. congruence.
  - apply makedirs_Dir_inv in H. destruct p as [|c p'].
    + eauto.
    + destruct (find_entry c es); [destruct H as (? & _ & ->)|]; eauto.
Qed.

(** After [os.makedirs(p)] the path [p] is a directory. *)
Lemma makedirs_lookup_self p : forall n n',
  makedirs_at p n = Ok n' -> exists es, lookup p n' = Some (Dir es).
Proof.
  induction p as [|c p IH]; intros n n' H.
  - destruct (makedirs_result_Dir _ _ _ H) as [es ->]. now exists es.
  - destruct n as [rows|es]; [discriminate H|].
    apply makedirs_Dir_inv in H.
    destruct (find_entry c es) as [child|] eqn:Hc.
    + destruct H as (child' & Hm & ->).
      rewrite lookup_cons, find_entry_set_same. eauto.
    + subst n'. rewrite lookup_cons, find_entry_app, Hc. simpl.
      rewrite String.eqb_refl. apply lookup_new_dirs_self.
Qed.

(** [os.makedirs(p, exist_ok=True)] on an existing directory changes nothing. *)
Lemma makedirs_existing p : forall n es,
  lookup p n = Some (Dir es) -> makedirs_at p n = Ok n.
Proof.
  induction p as [|c p IH]; intros n es H.
  - simpl in H. injection H as ->. reflexivity.
  - destruct n as [rows|es0]; [discriminate H|].
    rewrite lookup_cons in H. simpl.
    destruct (find_entry c es0) as [child|] eqn:Hc; [|discriminate].
    rewrite (IH _ _ H). simpl. now rewrite (set_entry_same _ _ _ Hc).
Qed.

(** Paths that do not lead towards [p] are not affected by [os.makedirs(p)]. *)
Lemma makedirs_lookup_other p : forall n n' q,
  makedirs_at p n = Ok n' -> (forall r, p <> q ++ r) -> lookup q n' = lookup q n.
Proof.
  induction p as [|c p IH]; intros n n' q H Hne.
  - destruct n as [rows|es]; [discriminate H|]. simpl in H. now injection H as <-.
  - destruct n as [rows|es]; [discriminate H|].
    apply makedirs_Dir_inv in H.
    destruct q as [|d q]; [now destruct (Hne (c :: p))|].
    destruct (find_entry c es) as [child|] eqn:Hc.
    + destruct H as (child' & Hm & ->). rewrite !lookup_cons.
      destruct (String.eqb_spec c d) as [<-|Hcd].
      * rewrite find_entry_set_same, Hc. apply (IH _ _ _ Hm).
        intros r ->. now apply (Hne r).
      * now rewrite find_entry_set_other.
    + subst n'. rewrite !lookup_cons, find_entry_app.
      destruct (find_entry d es) as [x|] eqn:Hd; [reflexivity|]. simpl.
      destruct (String.eqb_spec c d) as [<-|Hcd]; [|reflexivity].
      apply lookup_new_dirs_other. intros r ->. now apply (Hne r).
Qed.

(** Directories stay directories under [os.makedirs]. *)
Lemma makedirs_preserves_dir p : forall n n' q es,
  makedirs_at p n = Ok n' -> lookup q n = Some (Dir es) ->
  exists es', lookup q n' = Some (Dir es').
Proof.
  induction p as [|c p IH]; intros n n' q es H Hq.
  - destruct n as [rows|es0]; [discriminate H|]. simpl in H. injection H as <-. eauto.
  - destruct n as [rows|es0]; [discriminate H|].
    apply makedirs_Dir_inv in H.
    destruct q as [|d q].
    + destruct (find_entry c es0); [destruct H as (? & _ & ->)|subst n']; simpl; eauto.
    + rewrite lookup_cons in Hq.
      destruct (find_entry d es0) as [x|] eqn:Hd; [|discriminate].
      destruct (find_entry c es0) as [child|] eqn:Hc.
      * destruct H as (child' & Hm & ->). rewrite lookup_cons.
        destruct (String.eqb_spec c d) as [<-|Hcd].
        -- rewrite find_entry_set_same. assert (x = child) as -> by congruence.
           apply (IH _ _ _ _ Hm Hq).
        -- rewrite find_entry_set_other, Hd by assumption. eauto.
      * subst n'. rewrite lookup_cons, find_entry_app, Hd. eauto.
Qed.

Lemma write_Dir_inv c p' rows es n' :
  write_at (c :: p') rows (Dir es) = Ok n' ->
  match p' with
  | [] =>
      (exists old, find_entry c es = Some (File old) /\
                   n' = Dir (set_entry c (File rows) es)) \/
      (find_entry c es = None /\ n' = Dir (es ++ [(c, File rows)]))
  | _ :: _ =>
      exists child child',
        find_entry c es = Some child /\ write_at p' rows child = Ok child' /\
        n' = Dir (set_entry c child' es)
  end.
Proof.
  simpl. destruct p' as [|c' p''].
  - destruct (find_entry c es) as [[old|sub]|]; intros [= <-]; eauto.
  - destruct (find_entry c es) as [child|]; [|discriminate].
    destruct (write_at (c' :: p'') rows child) as [child'|e] eqn:Hw; simpl; [|discriminate].
    intros [= <-]. eauto.
Qed.

(** Reading back what was written. *)
Lemma write_lookup_self p : forall rows n n',
  write_at p rows n = Ok n' -> lookup p n' = Some (File rows).
Proof.
  induction p as [|c p IH]; intros rows n n' H; [discriminate H|].
  destruct n as [old|es]; [discriminate H|].
  apply write_Dir_inv in H. destruct p as [|c' p'].
  - destruct H as [(old & Hc & ->)|[Hc ->]]; rewrite lookup_cons.
    + now rewrite find_entry_set_same.
    + rewrite find_entry_app, Hc. simpl. now rewrite String.eqb_refl.
  - destruct H as (child & child' & Hc & Hw & ->).
    rewrite lookup_cons, find_entry_set_same. now apply (IH _ _ _ Hw).
Qed.

(** Directories stay directories when a file is written. *)
Lemma write_preserves_dir p : forall rows n n' q es,
  write_at p rows n = Ok n' -> lookup q n = Some (Dir es) ->
  exists es', lookup q n' = Some (Dir es').
Proof.
  induction p as [|c p IH]; intros rows n n' q es H Hq; [discriminate H|].
  destruct n as [old|es0]; [discriminate H|].
  apply write_Dir_inv in H.
  destruct q as [|d q].
  - destruct p as [|c' p'].
    + destruct H as [(old & _ & ->)|[_ ->]]; simpl; eauto.
    + destruct H as (child & child' & _ & _ & ->); simpl; eauto.
  - rewrite lookup_cons in Hq.
    destruct (find_entry d es0) as [x|] eqn:Hd; [|discriminate].
    destruct p as [|c' p'].
    + destruct H as [(old & Hc & ->)|[Hc ->]]; rewrite lookup_cons.
      * destruct (String.eqb_spec c d) as [<-|Hcd].
        -- assert (x = File old) as -> by congruence.
           destruct q; discriminate Hq.
        -- rewrite find_entry_set_other, Hd by assumption. eauto.
      * rewrite find_entry_app, Hd. eauto.
    + destruct H as (child & child' & Hc & Hw & ->). rewrite lookup_cons.
      destruct (String.eqb_spec c d) as [<-|Hcd].
      * rewrite find_entry_set_same. assert (x = child) as -> by congruence.
        apply (IH _ _ _ _ _ Hw Hq).
      * rewrite find_entry_set_other, Hd by assumption. eauto.
Qed.

(** A new file can be written into an existing directory. *)
Lemma write_new d : forall c rows n es,
  lookup d n = Some (Dir es) -> lookup (d ++ [c]) n = None ->
  exists n', write_at (d ++ [c]) rows n = Ok n'.
Proof.
  induction d as [|x d IH]; intros c rows n es Hd Hf.
  - simpl in Hd. injection Hd as ->. simpl in *.
    destruct (find_entry c es); [discriminate|eauto].
  - destruct n as [old|es0]; [discriminate Hd|].
    rewrite lookup_cons in Hd. change ((x :: d) ++ [c]) with (x :: (d ++ [c])) in *.
    rewrite lookup_cons in Hf.
    destruct (find_entry x es0) as [child|] eqn:Hx; [|discriminate].
    destruct (IH c rows child es Hd Hf) as [child' Hw].
    simpl. rewrite Hx.
    destruct (d ++ [c]) as [|y l] eqn:E; [now destruct d|].
    rewrite Hw. simpl. eauto.
Qed.

(** *** The walk *)

Lemma wav_names_Dir es :
  wav_names (Dir es)
  = filter (fun file => Py.endswith file ".wav") (file_names es) ++ sub_wav_names es.
Proof.
  unfold sub_wav_names. simpl. f_equal.
  induction es as [|[name child] es IH]; simpl; [reflexivity|now rewrite IH].
Qed.

Lemma walk_wav_names n : forall root, flat_map pick_wav (walk root n) = wav_names n.
Proof.
  induction n as [rows|es IH] using node_induction; intros root; [reflexivity|].
  rewrite wav_names_Dir. simpl. f_equal.
  unfold sub_wav_names.
  induction es as [|[name child] es IHes]; simpl; [reflexivity|].
  inversion IH as [|? ? Hc Hes]; subst. simpl in Hc.
  rewrite flat_map_app, Hc. f_equal. now apply IHes.
Qed.

Lemma all_stimuli_lookup stimuli_path n :
  all_stimuli stimuli_path n
  = match lookup stimuli_path n with
    | Some d => wav_names d
    | None => []
    end.
Proof.
  unfold all_stimuli, os_walk.
  destruct (lookup stimuli_path n) as [d|]; [|reflexivity].
  apply (walk_wav_names d stimuli_path).
Qed.

Lemma file_names_app es es' : file_names (es ++ es') = file_names es ++ file_names es'.
Proof. unfold file_names. now rewrite filter_app, map_app. Qed.

Lemma sub_wav_names_app es es' :
  sub_wav_names (es ++ es') = sub_wav_names es ++ sub_wav_names es'.
Proof. apply flat_map_app. Qed.

Lemma wav_names_new_dirs p : wav_names (new_dirs p) = [].
Proof.
  induction p as [|c p IH]; [reflexivity|].
  change (new_dirs (c :: p)) with (Dir [(c, new_dirs p)]).
  rewrite wav_names_Dir. unfold sub_wav_names, file_names. simpl.
  rewrite IH. now destruct p.
Qed.

Lemma file_names_set_dir c es0 es1 es :
  find_entry c es = Some (Dir es0) ->
  file_names (set_entry c (Dir es1) es) = file_names es.
Proof.
  unfold file_names. induction es as [|[n x] es IH]; simpl; [discriminate|].
  destruct (n =? c)%string.
  - intros [= ->]. reflexivity.
  - intros H. simpl. destruct x; simpl; now rewrite IH.
Qed.

Lemma sub_wav_names_set c child child' es :
  find_entry c es = Some child -> wav_names child' = wav_names child ->
  sub_wav_names (set_entry c child' es) = sub_wav_names es.
Proof.
  unfold sub_wav_names. intros Hc Hw.
  induction es as [|[n x] es IH]; simpl in *; [discriminate|].
  destruct (n =? c)%string.
  - injection Hc as ->. simpl. now rewrite Hw.
  - simpl. now rewrite IH.
Qed.

(** [os.makedirs] creates empty directories only: the stimuli found below
    any node are the same before and after. *)
Lemma wav_names_makedirs p : forall n n',
  makedirs_at p n = Ok n' -> wav_names n' = wav_names n.
Proof.
  induction p as [|c p IH]; intros n n' H.
  - destruct n as [rows|es]; [discriminate H|]. simpl in H. now injection H as <-.
  - destruct n as [rows|es]; [discriminate H|].
    apply makedirs_Dir_inv in H.
    destruct (find_entry c es) as [child|] eqn:Hc.
    + destruct H as (child' & Hm & ->).
      pose proof (IH _ _ Hm) as Hw.
      destruct (makedirs_result_Dir _ _ _ Hm) as [es1 ->].
      destruct child as [rows|es0].
      { destruct (makedirs_File p rows) as [e He]. congruence. }
      rewrite !wav_names_Dir, (file_names_set_dir _ _ _ _ Hc).
      now rewrite (sub_wav_names_set _ _ _ _ Hc Hw).
    + subst n'. rewrite !wav_names_Dir, file_names_app, sub_wav_names_app.
      unfold sub_wav_names at 2. simpl. rewrite wav_names_new_dirs, !app_nil_r.
      unfold file_names at 2. simpl. destruct p; simpl; now rewrite app_nil_r.
Qed.

Lemma all_stimuli_makedirs p : forall n n' stimuli_path,
  makedirs_at p n = Ok n' -> all_stimuli stimuli_path n' = all_stimuli stimuli_path n.
Proof.
  intros n n' sp H. rewrite !all_stimuli_lookup.
  revert n n' sp H. induction p as [|c p IH]; intros n n' sp H.
  - destruct n as [rows|es]; [discriminate H|]. simpl in H. now injection H as <-.
  - destruct sp as [|d sp]; [simpl; now apply (wav_names_makedirs (c :: p))|].
    destruct n as [rows|es]; [discriminate H|].
    apply makedirs_Dir_inv in H.
    destruct (find_entry c es) as [child|] eqn:Hc.
    + destruct H as (child' & Hm & ->). rewrite !lookup_cons.
      destruct (String.eqb_spec c d) as [<-|Hcd].
      * rewrite find_entry_set_same, Hc. now apply IH.
      * now rewrite find_entry_set_other.
    + subst n'. rewrite !lookup_cons, find_entry_app.
      destruct (find_entry d es) as [x|] eqn:Hd; [reflexivity|]. simpl.
      destruct (c =? d)%string; [|reflexivity].
      destruct (lookup_new_dirs sp p) as [->|[p' ->]]; [reflexivity|].
      apply wav_names_new_dirs.
Qed.

(** ** Extraction keeps the identifier *)

Lemma extract_filename_info_filename file s :
  extract_filename_info file = Ok s -> filename s = file.
Proof.
  unfold extract_filename_info, result_bind. intros H.
  repeat match type of H with
         | context [if ?b then _ else _] => destruct b
         | context [match ?r with Ok _ => _ | Raise _ => _ end] =>
             destruct r; try discriminate H
         end;
    injection H as <-; reflexivity.
Qed.

Lemma comprehension_extract_filenames files : forall data,
  comprehension extract_filename_info files = Ok data -> map filename data = files.
Proof.
  induction files as [|file files IH]; simpl; intros data H.
  - now injection H as <-.
  - unfold result_bind in H.
    destruct (extract_filename_info file) as [s|e] eqn:Hs; [|discriminate].
    destruct (comprehension extract_filename_info files) as [ss|e]; [|discriminate].
    injection H as <-. simpl.
    now rewrite (extract_filename_info_filename _ _ Hs), (IH ss).
Qed.

Lemma first_fields_singletons l : first_fields (map (fun s => [s]) l) = Ok l.
Proof.
  unfold first_fields. induction l as [|s l IH]; simpl; [reflexivity|].
  rewrite IH. reflexivity.
Qed.

(** ** Running computations *)

Lemma bind_ok {A B} (m : M A) (k : A -> M B) w a w' :
  m w = Some (Ok a, w') -> bind m k w = k a w'.
Proof. unfold bind. now intros ->. Qed.

Lemma bind_raise {A B} (m : M A) (k : A -> M B) w e w' :
  m w = Some (Raise e, w') -> bind m k w = Some (Raise e, w').
Proof. unfold bind. now intros ->. Qed.

Lemma os_makedirs_ok p w n :
  makedirs_at p (fs w) = Ok n -> os_makedirs p w = Some (Ok tt, set_fs n w).
Proof. unfold os_makedirs. now intros ->. Qed.

Lemma os_mkdir_ok p w n :
  mkdir_at p (fs w) = Ok n -> os_mkdir p w = Some (Ok tt, set_fs n w).
Proof. unfold os_mkdir. now intros ->. Qed.

Lemma csv_write_ok p rows w n :
  write_at p rows (fs w) = Ok n -> csv_write p rows w = Some (Ok tt, set_fs n w).
Proof. unfold csv_write. now intros ->. Qed.

Lemma exists_run p w : exists_ p w = Some (Ok (os_path_exists p (fs w)), w).
Proof. reflexivity. Qed.

Lemma read_at_exists p n rows : read_at p n = Ok rows -> os_path_exists p n = true.
Proof.
  unfold read_at, os_path_exists. destruct (lookup p n) as [[]|]; congruence.
Qed.

Lemma filter_all {A} (l : list A) : filter (fun _ => true) l = l.
Proof. induction l; simpl; congruence. Qed.

(** *** [load_stimuli] *)

Lemma load_stimuli_None stimuli_path w :
  load_stimuli stimuli_path None w = Some (Ok (all_stimuli stimuli_path (fs w)), w).
Proof. reflexivity. Qed.

Lemma load_stimuli_absent stimuli_path pf w :
  os_path_exists pf (fs w) = false ->
  load_stimuli stimuli_path (Some pf) w = Some (Ok (all_stimuli stimuli_path (fs w)), w).
Proof.
  intros H. unfold load_stimuli. rewrite (bind_ok _ _ _ _ _ (exists_run pf w)).
  now rewrite H.
Qed.

Lemma load_stimuli_present stimuli_path pf w rows labeled :
  read_at pf (fs w) = Ok rows ->
  first_fields rows = Ok labeled ->
  load_stimuli stimuli_path (Some pf) w
  = Some (Ok (filter (fun stimulus => negb (str_in stimulus labeled))
                     (all_stimuli stimuli_path (fs w))), w).
Proof.
  intros Hr Hf. unfold load_stimuli.
  rewrite (bind_ok _ _ _ _ _ (exists_run pf w)), (read_at_exists _ _ _ Hr).
  unfold bind, csv_read, lift, ret. now rewrite Hr, Hf.
Qed.

(** [load_stimuli] always returns or raises, and changes nothing. *)
Lemma load_stimuli_frame stimuli_path progress_file w :
  exists r, load_stimuli stimuli_path progress_file w = Some (r, w).
Proof.
  destruct progress_file as [pf|]; [|rewrite load_stimuli_None; eauto].
  unfold load_stimuli. rewrite (bind_ok _ _ _ _ _ (exists_run pf w)).
  destruct (os_path_exists pf (fs w)); [|unfold ret; eauto].
  unfold bind, csv_read, lift, ret.
  destruct (read_at pf (fs w)) as [rows|e]; [|eauto].
  destruct (first_fields rows); eauto.
Qed.

(** The progress log as [load_progress] reads it decides what
    [load_stimuli] filters out. *)
Lemma load_stimuli_progress stimuli_path pf w labeled w' :
  load_progress pf w = Some (Ok labeled, w') ->
  load_stimuli stimuli_path (Some pf) w
  = Some (Ok (filter (fun stimulus => negb (str_in stimulus labeled))
                     (all_stimuli stimuli_path (fs w))), w).
Proof.
  unfold load_progress. rewrite (bind_ok _ _ _ _ _ (exists_run pf w)).
  destruct (os_path_exists pf (fs w)) eqn:Hx; cbn [negb]; intros H.
  - unfold bind, csv_read, lift in H.
    destruct (read_at pf (fs w)) as [rows|e] eqn:Hr; [|discriminate].
    apply load_stimuli_present with rows; [exact Hr|].
    destruct (first_fields rows); now inversion H.
  - unfold ret in H. injection H as <- <-.
    rewrite load_stimuli_absent by exact Hx.
    cbn [str_in existsb negb]. now rewrite filter_all.
Qed.

Lemma load_stimuli_same_fs stimuli_path pf w n :
  all_stimuli stimuli_path n = all_stimuli stimuli_path (fs w) ->
  lookup pf n = lookup pf (fs w) ->
  load_stimuli stimuli_path (Some pf) (set_fs n w)
  = match load_stimuli stimuli_path (Some pf) w with
    | Some (r, _) => Some (r, set_fs n w)
    | None => None
    end.
Proof.
  intros Ha Hl. unfold load_stimuli, bind, exists_, csv_read, lift, ret,
    os_path_exists, read_at.
  cbv beta. change (fs (set_fs n w)) with n. rewrite Ha, Hl.
  destruct (lookup pf (fs w)) as [[rows|es]|] eqn:E; cbv beta iota;
    change (fs (set_fs n w)) with n; rewrite ?Hl, ?E; try reflexivity.
  destruct (first_fields rows); reflexivity.
Qed.

Lemma not_prefix_longer {A} (p q : list A) :
  List.length p < List.length q -> forall r, p <> q ++ r.
Proof. intros Hl r ->. rewrite length_app in Hl. lia. Qed.

(** C10. Without a progress file ([None]), or with a progress file path at
    which nothing exists, [load_stimuli] returns every enumerated
    identifier and raises nothing; identifiers are filtered out only when
    the progress file exists, and then those in its first column. *)
Theorem load_stimuli_without_progress_file (stimuli_path : path) (w : World) :
  load_stimuli stimuli_path None w = Some (Ok (all_stimuli stimuli_path (fs w)), w) /\
  (forall progress_file,
     os_path_exists progress_file (fs w) = false ->
     load_stimuli stimuli_path (Some progress_file) w
     = Some (Ok (all_stimuli stimuli_path (fs w)), w)) /\
  (forall progress_file rows labeled_stimuli,
     read_at progress_file (fs w) = Ok rows ->
     first_fields rows = Ok labeled_stimuli ->
     load_stimuli stimuli_path (Some progress_file) w
     = Some (Ok (filter (fun stimulus => negb (str_in stimulus labeled_stimuli))
                        (all_stimuli stimuli_path (fs w))), w)).
Proof.
  split; [apply load_stimuli_None|split].
  - intros pf. apply load_stimuli_absent.
  - intros pf rows labeled. apply load_stimuli_present.
Qed.

(** C6. In the practice phase [load_and_randomize] does not randomize.
    When the results directory can be created, the call returns the
    enumerated identifiers in enumeration order without those the
    practice progress log lists, and only the file system has changed (the
    created directory).  Whatever the outcome, the random generator and the
    console are as before the call: nothing was drawn, nothing printed. *)
Theorem practice_phase_is_not_randomized
    (stimuli_path : path) (participant_info : ParticipantInfo) (w : World)
    (fs1 : node) (labeled_stimuli : list string) :
  makedirs_at (progress_directory participant_info) (fs w) = Ok fs1 ->
  load_progress (progress_file_path participant_info "practice") w
  = Some (Ok labeled_stimuli, w) ->
  load_and_randomize stimuli_path participant_info "practice" w
  = Some (Ok (filter (fun stimulus => negb (str_in stimulus labeled_stimuli))
                     (all_stimuli stimuli_path (fs w)),
              progress_file_path participant_info "practice"),
          set_fs fs1 w) /\
  (forall w0,
     exists r w',
       load_and_randomize stimuli_path participant_info "practice" w0 = Some (r, w') /\
       rng w' = rng w0 /\ stdout w' = stdout w0).
Proof.
  intros Hmk Hprog. split.
  - unfold load_and_randomize.
    rewrite (bind_ok _ _ _ _ _ (os_makedirs_ok _ _ _ Hmk)).
    change ("practice" =? "practice")%string with true. cbv iota.
    pose proof (load_stimuli_progress stimuli_path _ _ _ _ Hprog) as Hload.
    assert (Hl : lookup (progress_file_path participant_info "practice") fs1
                 = lookup (progress_file_path participant_info "practice") (fs w)).
    { apply (makedirs_lookup_other _ _ _ _ Hmk).
      apply not_prefix_longer. unfold progress_file_path, progress_directory.
      rewrite length_app. simpl. lia. }
    pose proof (load_stimuli_same_fs stimuli_path _ w fs1
                  (all_stimuli_makedirs _ _ _ stimuli_path Hmk) Hl) as Hsame.
    rewrite Hload in Hsame.
    now rewrite (bind_ok _ _ _ _ _ Hsame).
  - intros w0. unfold load_and_randomize.
    change ("practice" =? "practice")%string with true. cbv iota.
    destruct (makedirs_at (progress_directory participant_info) (fs w0)) as [n|e] eqn:Hm.
    + rewrite (bind_ok _ _ _ _ _ (os_makedirs_ok _ _ _ Hm)).
      destruct (load_stimuli_frame stimuli_path
                  (Some (progress_file_path participant_info "practice")) (set_fs n w0))
        as [[l|e] Hr].
      * rewrite (bind_ok _ _ _ _ _ Hr). unfold ret. eauto.
      * rewrite (bind_raise _ _ _ _ _ Hr). eauto.
    + unfold bind, os_makedirs. rewrite Hm. eauto.
Qed.

(** *** [randomize_stimuli] and the test phase *)

Lemma randomize_stimuli_spec stimuli_files stimulus_data w :
  comprehension extract_filename_info stimuli_files = Ok stimulus_data ->
  exists randomized w',
    constraint_randomization stimulus_data w = Some (Ok randomized, w') /\
    randomize_stimuli stimuli_files w = Some (Ok (map filename randomized), w') /\
    Permutation stimulus_data randomized /\
    Permutation stimuli_files (map filename randomized) /\
    fs w' = fs w.
Proof.
  intros Hx.
  destruct (constraint_randomization_spec stimulus_data w) as (out & w' & Hrun & HP & Hfs).
  exists out, w'. repeat split; auto.
  - unfold randomize_stimuli, bind, lift, ret. now rewrite Hx, Hrun.
  - rewrite <- (comprehension_extract_filenames _ _ Hx). now apply Permutation_map.
Qed.

Lemma randomize_stimuli_raises stimuli_files e w :
  comprehension extract_filename_info stimuli_files = Raise e ->
  randomize_stimuli stimuli_files w = Some (Raise e, w).
Proof. intros Hx. unfold randomize_stimuli, bind, lift. now rewrite Hx. Qed.

Lemma randomized_file_not_created participant_info phase n n1 n2 :
  makedirs_at (progress_directory participant_info) n = Ok n1 ->
  makedirs_at (randomization_directory participant_info) n1 = Ok n2 ->
  lookup (randomized_file_path participant_info phase) n2
  = lookup (randomized_file_path participant_info phase) n.
Proof.
  intros H1 H2.
  rewrite (makedirs_lookup_other _ _ _ _ H2), (makedirs_lookup_other _ _ _ _ H1);
    [reflexivity| |]; apply not_prefix_longer;
    unfold randomized_file_path; rewrite length_app; simpl; lia.
Qed.

(** The first call of the test phase, step by step. *)
Lemma load_and_randomize_fresh stimuli_path participant_info w fs1 fs2 stimulus_data :
  makedirs_at (progress_directory participant_info) (fs w) = Ok fs1 ->
  makedirs_at (randomization_directory participant_info) fs1 = Ok fs2 ->
  os_path_exists (randomized_file_path participant_info "test") (fs w) = false ->
  comprehension extract_filename_info (all_stimuli stimuli_path (fs w)) = Ok stimulus_data ->
  exists randomized w_r fs3,
    constraint_randomization stimulus_data (set_fs fs2 w) = Some (Ok randomized, w_r) /\
    fs w_r = fs2 /\
    write_at (randomized_file_path participant_info "test")
             (map (fun stimulus => [stimulus]) (map filename randomized)) fs2 = Ok fs3 /\
    load_and_randomize stimuli_path participant_info "test" w
    = Some (Ok (map filename randomized, progress_file_path participant_info "test"),
            add_stdout (SavedNew (randomized_file_path participant_info "test"))
                       (set_fs fs3 w_r)) /\
    Permutation stimulus_data randomized /\
    Permutation (all_stimuli stimuli_path (fs w)) (map filename randomized).
Proof.
  intros H1 H2 Hx Hdata.
  assert (Hall : all_stimuli stimuli_path fs2 = all_stimuli stimuli_path (fs w)).
  { now rewrite (all_stimuli_makedirs _ _ _ _ H2), (all_stimuli_makedirs _ _ _ _ H1). }
  assert (Hx2 : lookup (randomized_file_path participant_info "test") fs2 = None).
  { rewrite (randomized_file_not_created _ _ _ _ _ H1 H2).
    unfold os_path_exists in Hx.
    destruct (lookup (randomized_file_path participant_info "test") (fs w));
      [discriminate|reflexivity]. }
  destruct (randomize_stimuli_spec _ _ (set_fs fs2 w) Hdata)
    as (out & w_r & Hrun & Hrand & HP & HPf & Hfs).
  change (fs (set_fs fs2 w)) with fs2 in Hfs.
  destruct (makedirs_lookup_self _ _ _ H2) as [es Hrd].
  destruct (write_new _ "test_randomized_stimuli.csv"
              (map (fun stimulus => [stimulus]) (map filename out)) fs2 es Hrd Hx2)
    as [fs3 Hw].
  exists out, w_r, fs3. repeat split; auto.
  unfold load_and_randomize.
  rewrite (bind_ok _ _ _ _ _ (os_makedirs_ok _ _ _ H1)).
  change ("test" =? "practice")%string with false. cbv iota.
  rewrite (bind_ok _ _ _ _ _ (os_makedirs_ok _ (set_fs fs1 w) _ H2)).
  rewrite (bind_ok _ _ _ _ _ (exists_run _ _)).
  change (set_fs fs2 (set_fs fs1 w)) with (set_fs fs2 w).
  change (fs (set_fs fs2 w)) with fs2.
  unfold os_path_exists at 1. rewrite Hx2.
  assert (Hinner :
    (stimuli_files <- load_stimuli stimuli_path None ;;
     randomized_stimuli <- randomize_stimuli stimuli_files ;;
     csv_write (randomized_file_path participant_info "test")
               (map (fun stimulus => [stimulus]) randomized_stimuli) ;;;
     print (SavedNew (randomized_file_path participant_info "test")) ;;;
     ret randomized_stimuli) (set_fs fs2 w)
    = Some (Ok (map filename out),
            add_stdout (SavedNew (randomized_file_path participant_info "test"))
                       (set_fs fs3 w_r))).
  { rewrite (bind_ok _ _ _ _ _ (load_stimuli_None _ _)).
    change (fs (set_fs fs2 w)) with fs2. rewrite Hall.
    rewrite (bind_ok _ _ _ _ _ Hrand).
    assert (Hw' : write_at (randomized_file_path participant_info "test")
                    (map (fun stimulus => [stimulus]) (map filename out)) (fs w_r)
                  = Ok fs3) by (rewrite Hfs; exact Hw).
    rewrite (bind_ok _ _ _ _ _ (csv_write_ok _ _ _ _ Hw')).
    reflexivity. }
  now rewrite (bind_ok _ _ _ _ _ Hinner).
Qed.

(** A later call of the test phase, with the order file in place. *)
Lemma load_and_randomize_persisted stimuli_path participant_info w es1 es2 rows stimuli :
  lookup (progress_directory participant_info) (fs w) = Some (Dir es1) ->
  lookup (randomization_directory participant_info) (fs w) = Some (Dir es2) ->
  read_at (randomized_file_path participant_info "test") (fs w) = Ok rows ->
  first_fields (tl rows) = Ok stimuli ->
  load_and_randomize stimuli_path participant_info "test" w
  = Some (Ok (stimuli, progress_file_path participant_info "test"),
          add_stdout (LoadedExisting (randomized_file_path participant_info "test")) w).
Proof.
  intros H1 H2 Hr Hf.
  assert (Hw : set_fs (fs w) w = w) by now destruct w.
  unfold load_and_randomize.
  rewrite (bind_ok _ _ _ _ _ (os_makedirs_ok _ _ _ (makedirs_existing _ _ _ H1))), Hw.
  change ("test" =? "practice")%string with false. cbv iota.
  rewrite (bind_ok _ _ _ _ _ (os_makedirs_ok _ _ _ (makedirs_existing _ _ _ H2))), Hw.
  rewrite (bind_ok _ _ _ _ _ (exists_run _ _)), (read_at_exists _ _ _ Hr).
  unfold bind, csv_read, lift, print, ret. now rewrite Hr, Hf.
Qed.

(** C7. Test phase, no persisted order for the participant: when the two
    directories can be created and every enumerated identifier has a
    recognized shape, [load_and_randomize] runs the constraint randomizer
    on the records extracted from the full enumeration (the progress log
    is not consulted), writes the resulting order to the order file, one
    identifier per row, and returns that order, which is a permutation of
    all enumerated identifiers. *)
Theorem first_test_call_randomizes_full_set
    (stimuli_path : path) (participant_info : ParticipantInfo) (w : World)
    (fs1 fs2 : node) (stimulus_data : list Stimulus) :
  makedirs_at (progress_directory participant_info) (fs w) = Ok fs1 ->
  makedirs_at (randomization_directory participant_info) fs1 = Ok fs2 ->
  os_path_exists (randomized_file_path participant_info "test") (fs w) = false ->
  comprehension extract_filename_info (all_stimuli stimuli_path (fs w)) = Ok stimulus_data ->
  exists randomized w_r w',
    constraint_randomization stimulus_data (set_fs fs2 w) = Some (Ok randomized, w_r) /\
    load_and_randomize stimuli_path participant_info "test" w
    = Some (Ok (map filename randomized, progress_file_path participant_info "test"), w') /\
    read_at (randomized_file_path participant_info "test") (fs w')
    = Ok (map (fun stimulus => [stimulus]) (map filename randomized)) /\
    stdout w' = stdout w_r ++ [SavedNew (randomized_file_path participant_info "test")] /\
    Permutation stimulus_data randomized /\
    Permutation (all_stimuli stimuli_path (fs w)) (map filename randomized).
Proof.
  intros H1 H2 Hx Hdata.
  destruct (load_and_randomize_fresh stimuli_path _ _ _ _ _ H1 H2 Hx Hdata)
    as (out & w_r & fs3 & Hrun & Hfs & Hw & Hcall & HP & HPf).
  exists out, w_r,
    (add_stdout (SavedNew (randomized_file_path participant_info "test")) (set_fs fs3 w_r)).
  repeat split; auto.
  unfold read_at. cbn [fs add_stdout set_fs].
  now rewrite (write_lookup_self _ _ _ _ Hw).
Qed.

(** C1 (as the code behaves). After a first test-phase call has computed
    and persisted an order, the second call reads the order file back but
    skips its first row as if it were a header: it returns the first
    call's list without its first identifier. *)
Theorem resume_drops_first_stimulus
    (stimuli_path : path) (participant_info : ParticipantInfo) (w w1 : World)
    (order : list string) (pf : path) :
  os_path_exists (randomized_file_path participant_info "test") (fs w) = false ->
  load_and_randomize stimuli_path participant_info "test" w = Some (Ok (order, pf), w1) ->
  load_and_randomize stimuli_path participant_info "test" w1
  = Some (Ok (tl order, pf),
          add_stdout (LoadedExisting (randomized_file_path participant_info "test")) w1).
Proof.
  intros Hx Hfirst.
  destruct (makedirs_at (progress_directory participant_info) (fs w)) as [fs1|e] eqn:H1.
  2:{ unfold load_and_randomize, bind, os_makedirs in Hfirst.
      rewrite H1 in Hfirst. discriminate. }
  destruct (makedirs_at (randomization_directory participant_info) fs1) as [fs2|e] eqn:H2.
  2:{ unfold load_and_randomize in Hfirst.
      rewrite (bind_ok _ _ _ _ _ (os_makedirs_ok _ _ _ H1)) in Hfirst.
      change ("test" =? "practice")%string with false in Hfirst. cbv iota in Hfirst.
      unfold bind at 1, os_makedirs in Hfirst.
      change (fs (set_fs fs1 w)) with fs1 in Hfirst.
      rewrite H2 in Hfirst. discriminate. }
  destruct (comprehension extract_filename_info (all_stimuli stimuli_path (fs w)))
    as [stimulus_data|e] eqn:Hdata.
  2:{ assert (Hall : all_stimuli stimuli_path fs2 = all_stimuli stimuli_path (fs w)).
      { now rewrite (all_stimuli_makedirs _ _ _ _ H2), (all_stimuli_makedirs _ _ _ _ H1). }
      unfold load_and_randomize in Hfirst.
      rewrite (bind_ok _ _ _ _ _ (os_makedirs_ok _ _ _ H1)) in Hfirst.
      change ("test" =? "practice")%string with false in Hfirst. cbv iota in Hfirst.
      rewrite (bind_ok _ _ _ _ _ (os_makedirs_ok _ (set_fs fs1 w) _ H2)) in Hfirst.
      rewrite (bind_ok _ _ _ _ _ (exists_run _ _)) in Hfirst.
      change (fs (set_fs fs2 (set_fs fs1 w))) with fs2 in Hfirst.
      unfold os_path_exists in Hfirst at 1.
      rewrite (randomized_file_not_created _ _ _ _ _ H1 H2) in Hfirst.
      unfold os_path_exists in Hx.
      destruct (lookup (randomized_file_path participant_info "test") (fs w));
        [discriminate Hx|].
      assert (Hinner :
        (stimuli_files <- load_stimuli stimuli_path None ;;
         randomized_stimuli <- randomize_stimuli stimuli_files ;;
         csv_write (randomized_file_path participant_info "test")
                   (map (fun stimulus => [stimulus]) randomized_stimuli) ;;;
         print (SavedNew (randomized_file_path participant_info "test")) ;;;
         ret randomized_stimuli) (set_fs fs2 (set_fs fs1 w))
        = Some (Raise e, set_fs fs2 (set_fs fs1 w))).
      { rewrite (bind_ok _ _ _ _ _ (load_stimuli_None _ _)).
        change (fs (set_fs fs2 (set_fs fs1 w))) with fs2. rewrite Hall.
        now rewrite (bind_raise _ _ _ _ _ (randomize_stimuli_raises _ _ _ Hdata)). }
      rewrite (bind_raise _ _ _ _ _ Hinner) in Hfirst. discriminate. }
  destruct (load_and_randomize_fresh stimuli_path _ _ _ _ _ H1 H2 Hx Hdata)
    as (out & w_r & fs3 & Hrun & Hfs & Hw & Hcall & HP & HPf).
  rewrite Hcall in Hfirst. injection Hfirst as <- <- <-.
  destruct (makedirs_lookup_self _ _ _ H1) as [es1 Hd1].
  destruct (makedirs_preserves_dir _ _ _ _ _ H2 Hd1) as [es1' Hd1'].
  destruct (write_preserves_dir _ _ _ _ _ _ Hw Hd1') as [es1'' Hd1''].
  destruct (makedirs_lookup_self _ _ _ H2) as [es2 Hd2].
  destruct (write_preserves_dir _ _ _ _ _ _ Hw Hd2) as [es2' Hd2'].
  apply load_and_randomize_persisted
    with (es1 := es1'') (es2 := es2')
         (rows := map (fun stimulus => [stimulus]) (map filename out)).
  - exact Hd1''.
  - exact Hd2'.
  - unfold read_at. cbn [fs add_stdout set_fs]. now rewrite (write_lookup_self _ _ _ _ Hw).
  - destruct (map filename out) as [|x l]; [reflexivity|]. apply first_fields_singletons.
Qed.

(** ** [os.mkdir] and the path check *)

Lemma mkdir_Dir_inv c p' es n' :
  mkdir_at (c :: p') (Dir es) = Ok n' ->
  match p' with
  | [] => find_entry c es = None /\ n' = Dir (es ++ [(c, Dir [])])
  | _ :: _ =>
      exists child child',
        find_entry c es = Some child /\ mkdir_at p' child = Ok child' /\
        n' = Dir (set_entry c child' es)
  end.
Proof.
  simpl. destruct p' as [|c' p''].
  - destruct (find_entry c es); [discriminate|]. intros [= <-]. auto.
  - destruct (find_entry c es) as [child|]; [|discriminate].
    destruct (mkdir_at (c' :: p'') child) as [child'|e] eqn:Hw; simpl; [|discriminate].
    intros [= <-]. eauto.
Qed.

Lemma mkdir_lookup_self p : forall n n',
  mkdir_at p n = Ok n' -> lookup p n' = Some (Dir []).
Proof.
  induction p as [|c p IH]; intros n n' H; [discriminate H|].
  destruct n as [old|es]; [discriminate H|].
  apply mkdir_Dir_inv in H. destruct p as [|c' p'].
  - destruct H as [Hc ->]. rewrite lookup_cons, find_entry_app, Hc. simpl.
    now rewrite String.eqb_refl.
  - destruct H as (child & child' & Hc & Hm & ->).
    rewrite lookup_cons, find_entry_set_same. now apply (IH _ _ Hm).
Qed.

(** What exists keeps existing when a directory is created. *)
Lemma mkdir_preserves_exists p : forall n n' q,
  mkdir_at p n = Ok n' -> os_path_exists q n = true -> os_path_exists q n' = true.
Proof.
  unfold os_path_exists.
  induction p as [|c p IH]; intros n n' q H Hq; [discriminate H|].
  destruct n as [old|es]; [discriminate H|].
  apply mkdir_Dir_inv in H.
  destruct q as [|d q]; [reflexivity|].
  rewrite lookup_cons in Hq.
  destruct (find_entry d es) as [x|] eqn:Hd; [|discriminate].
  destruct p as [|c' p'].
  - destruct H as [Hc ->]. now rewrite lookup_cons, find_entry_app, Hd.
  - destruct H as (child & child' & Hc & Hm & ->). rewrite lookup_cons.
    destruct (String.eqb_spec c d) as [<-|Hcd].
    + rewrite find_entry_set_same. assert (x = child) as -> by congruence.
      apply (IH _ _ _ Hm Hq).
    + now rewrite find_entry_set_other, Hd.
Qed.

(** [os.mkdir] succeeds for a new name in an existing directory. *)
Lemma mkdir_new d : forall c n es,
  lookup d n = Some (Dir es) -> lookup (d ++ [c]) n = None ->
  exists n', mkdir_at (d ++ [c]) n = Ok n'.
Proof.
  induction d as [|x d IH]; intros c n es Hd Hf.
  - simpl in Hd. injection Hd as ->. simpl in *.
    destruct (find_entry c es); [discriminate|eauto].
  - destruct n as [old|es0]; [discriminate Hd|].
    rewrite lookup_cons in Hd. change ((x :: d) ++ [c]) with (x :: (d ++ [c])) in *.
    rewrite lookup_cons in Hf.
    destruct (find_entry x es0) as [child|] eqn:Hx; [|discriminate].
    destruct (IH c child es Hd Hf) as [child' Hw].
    simpl. rewrite Hx.
    destruct (d ++ [c]) as [|y l] eqn:E; [now destruct d|].
    rewrite Hw. simpl. eauto.
Qed.

Lemma check_config_paths_missing t p r pics rnd w :
  required_present t p pics (fs w) = false ->
  exists msg, check_config_paths t p r pics rnd w = Some (Raise (Exception msg), w).
Proof.
  unfold required_present, check_config_paths. intros H.
  rewrite (bind_ok _ _ _ _ _ (exists_run t w)).
  destruct (os_path_exists t (fs w)); cbn [negb]; [|unfold bind, raise; eauto].
  rewrite (bind_ok _ _ _ _ _ (eq_refl : ret tt w = Some (Ok tt, w))).
  rewrite (bind_ok _ _ _ _ _ (exists_run p w)).
  destruct (os_path_exists p (fs w)); cbn [negb]; [|unfold bind, raise; eauto].
  rewrite (bind_ok _ _ _ _ _ (eq_refl : ret tt w = Some (Ok tt, w))).
  rewrite (bind_ok _ _ _ _ _ (exists_run pics w)).
  destruct (os_path_exists pics (fs w)); cbn [negb]; [discriminate H|].
  unfold bind, raise; eauto.
Qed.

Lemma check_config_paths_present t p r pics rnd w :
  required_present t p pics (fs w) = true ->
  check_config_paths t p r pics rnd w
  = (found <- exists_ r ;;
     (if negb found then os_mkdir r else ret tt) ;;;
     found <- exists_ rnd ;;
     (if negb found then os_mkdir rnd else ret tt)) w.
Proof.
  unfold required_present, check_config_paths. rewrite !andb_true_iff.
  intros [[Ht Hp] Hpics].
  rewrite (bind_ok _ _ _ _ _ (exists_run t w)), Ht. cbn [negb].
  rewrite (bind_ok _ _ _ _ _ (eq_refl : ret tt w = Some (Ok tt, w))).
  rewrite (bind_ok _ _ _ _ _ (exists_run p w)), Hp. cbn [negb].
  rewrite (bind_ok _ _ _ _ _ (eq_refl : ret tt w = Some (Ok tt, w))).
  rewrite (bind_ok _ _ _ _ _ (exists_run pics w)), Hpics. cbn [negb].
  now rewrite (bind_ok _ _ _ _ _ (eq_refl : ret tt w = Some (Ok tt, w))).
Qed.

(** [os.mkdir] raises operating-system errors, never the plain [Exception]. *)
Lemma mkdir_at_error p : forall n e,
  mkdir_at p n = Raise e ->
  e = FileExistsError \/ e = NotADirectoryError \/ e = FileNotFoundError.
Proof.
  induction p as [|c p IH]; intros n e H.
  - simpl in H. injection H as <-. auto.
  - destruct n as [old|es]; [simpl in H; injection H as <-; auto|].
    destruct p as [|c' p'].
    + simpl in H. destruct (find_entry c es); [injection H as <-; auto|discriminate].
    + change (mkdir_at (c :: c' :: p') (Dir es))
        with (match find_entry c es with
              | Some child =>
                  child' <-? mkdir_at (c' :: p') child ;; Ok (Dir (set_entry c child' es))
              | None => Raise FileNotFoundError
              end) in H.
      destruct (find_entry c es) as [child|]; [|injection H as <-; auto].
      destruct (mkdir_at (c' :: p') child) as [child'|e'] eqn:Hm;
        unfold result_bind in H; [discriminate|].
      injection H as <-. now apply (IH child).
Qed.

Lemma check_config_paths_tail r rnd w :
  (exists e w',
     (found <- exists_ r ;;
      (if negb found then os_mkdir r else ret tt) ;;;
      found <- exists_ rnd ;;
      (if negb found then os_mkdir rnd else ret tt)) w = Some (Raise e, w') /\
     (e = FileExistsError \/ e = NotADirectoryError \/ e = FileNotFoundError)) \/
  (exists fs1 fs2,
     (if os_path_exists r (fs w) then Ok (fs w) else mkdir_at r (fs w)) = Ok fs1 /\
     (if os_path_exists rnd fs1 then Ok fs1 else mkdir_at rnd fs1) = Ok fs2 /\
     (found <- exists_ r ;;
      (if negb found then os_mkdir r else ret tt) ;;;
      found <- exists_ rnd ;;
      (if negb found then os_mkdir rnd else ret tt)) w = Some (Ok tt, set_fs fs2 w) /\
     os_path_exists r fs2 = true /\ os_path_exists rnd fs2 = true).
Proof.
  assert (Hw : set_fs (fs w) w = w) by now destruct w.
  rewrite (bind_ok _ _ _ _ _ (exists_run r w)).
  assert (Hstep1 :
    (exists e, mkdir_at r (fs w) = Raise e /\ os_path_exists r (fs w) = false) \/
    (exists fs1,
       (if os_path_exists r (fs w) then Ok (fs w) else mkdir_at r (fs w)) = Ok fs1 /\
       (if negb (os_path_exists r (fs w)) then os_mkdir r else ret tt) w
       = Some (Ok tt, set_fs fs1 w) /\
       os_path_exists r fs1 = true)).
  { destruct (os_path_exists r (fs w)) eqn:Hr; cbn [negb].
    - right. exists (fs w). rewrite Hw. auto.
    - destruct (mkdir_at r (fs w)) as [fs1|e] eqn:Hm; [right|left; eauto].
      exists fs1. rewrite (os_mkdir_ok _ _ _ Hm). repeat split.
      unfold os_path_exists. now rewrite (mkdir_lookup_self _ _ _ Hm). }
  destruct Hstep1 as [(e & Hm & Hr)|(fs1 & He1 & Hrun1 & Hx1)].
  { left. exists e, w. rewrite Hr. cbn [negb]. unfold bind, os_mkdir. rewrite Hm.
    split; [reflexivity|]. now apply (mkdir_at_error r (fs w)). }
  rewrite (bind_ok _ _ _ _ _ Hrun1).
  rewrite (bind_ok _ _ _ _ _ (exists_run rnd _)).
  change (fs (set_fs fs1 w)) with fs1.
  destruct (os_path_exists rnd fs1) eqn:Hrnd; cbn [negb].
  - right. exists fs1, fs1. rewrite He1, Hrnd. auto.
  - destruct (mkdir_at rnd fs1) as [fs2|e] eqn:Hm.
    + right. exists fs1, fs2. rewrite He1, Hrnd.
      rewrite (os_mkdir_ok _ (set_fs fs1 w) _ Hm). repeat split; auto.
      * now apply (mkdir_preserves_exists _ _ _ _ Hm).
      * unfold os_path_exists. now rewrite (mkdir_lookup_self _ _ _ Hm).
    + left. exists e, (set_fs fs1 w). unfold os_mkdir.
      change (fs (set_fs fs1 w)) with fs1. rewrite Hm.
      split; [reflexivity|]. now apply (mkdir_at_error rnd fs1).
Qed.

Lemma check_config_paths_tail_ok r rnd w fs1 fs2 :
  (if os_path_exists r (fs w) then Ok (fs w) else mkdir_at r (fs w)) = Ok fs1 ->
  (if os_path_exists rnd fs1 then Ok fs1 else mkdir_at rnd fs1) = Ok fs2 ->
  (found <- exists_ r ;;
   (if negb found then os_mkdir r else ret tt) ;;;
   found <- exists_ rnd ;;
   (if negb found then os_mkdir rnd else ret tt)) w = Some (Ok tt, set_fs fs2 w) /\
  os_path_exists r fs2 = true /\ os_path_exists rnd fs2 = true.
Proof.
  intros H1 H2.
  destruct (check_config_paths_tail r rnd w)
    as [(e & w' & Hrun & _)|(fs1' & fs2' & H1' & H2' & Hrun & Hx)].
  - exfalso. revert Hrun.
    rewrite (bind_ok _ _ _ _ _ (exists_run r w)).
    destruct (os_path_exists r (fs w)) eqn:Hr; cbn [negb].
    + injection H1 as <-.
      rewrite (bind_ok _ _ _ _ _ (eq_refl : ret tt w = Some (Ok tt, w))).
      rewrite (bind_ok _ _ _ _ _ (exists_run rnd w)).
      destruct (os_path_exists rnd (fs w)); cbn [negb]; [discriminate|].
      unfold os_mkdir. now rewrite H2.
    + rewrite (bind_ok _ _ _ _ _ (os_mkdir_ok _ _ _ H1)).
      rewrite (bind_ok _ _ _ _ _ (exists_run rnd _)).
      change (fs (set_fs fs1 w)) with fs1.
      destruct (os_path_exists rnd fs1); cbn [negb]; [discriminate|].
      unfold os_mkdir. change (fs (set_fs fs1 w)) with fs1. now rewrite H2.
  - assert (fs1' = fs1) as -> by congruence.
    assert (fs2' = fs2) as -> by congruence.
    auto.
Qed.

Lemma required_present_false t p pics n :
  required_present t p pics n = false <->
  os_path_exists t n = false \/ os_path_exists p n = false \/ os_path_exists pics n = false.
Proof.
  unfold required_present.
  destruct (os_path_exists t n), (os_path_exists p n), (os_path_exists pics n);
    simpl; intuition congruence.
Qed.

Lemma check_config_paths_Exception t p r pics rnd w msg w' :
  check_config_paths t p r pics rnd w = Some (Raise (Exception msg), w') ->
  required_present t p pics (fs w) = false /\ w' = w.
Proof.
  intros H. destruct (required_present t p pics (fs w)) eqn:Hreq.
  - rewrite (check_config_paths_present _ _ _ _ _ _ Hreq) in H.
    destruct (check_config_paths_tail r rnd w)
      as [(e & w0 & Hrun & He)|(fs1 & fs2 & _ & _ & Hrun & _)];
      rewrite Hrun in H; [|discriminate].
    injection H as -> _. destruct He as [He|[He|He]]; discriminate He.
  - destruct (check_config_paths_missing _ _ r _ rnd _ Hreq) as [msg0 Hrun].
    rewrite Hrun in H. injection H as _ <-. auto.
Qed.

(** C9 (amended). [check_config_paths] raises its own exception exactly
    when one of the test-stimuli, practice-stimuli or pictures paths does
    not exist, and the file system is then untouched.  When all three exist
    it creates the results and the randomization-lists directories with
    [os.mkdir] where they are missing, and returns normally if those calls
    succeed; [os.mkdir] succeeds for a new name inside an existing
    directory. *)
Theorem check_config_paths_spec
    (test_stimuli_path practice_stimuli_path results_path pics_path random_path : path)
    (w : World) :
  ((exists message w',
      check_config_paths test_stimuli_path practice_stimuli_path results_path
                         pics_path random_path w
      = Some (Raise (Exception message), w')) <->
   (os_path_exists test_stimuli_path (fs w) = false \/
    os_path_exists practice_stimuli_path (fs w) = false \/
    os_path_exists pics_path (fs w) = false)) /\
  (forall message w',
     check_config_paths test_stimuli_path practice_stimuli_path results_path
                        pics_path random_path w
     = Some (Raise (Exception message), w') -> w' = w) /\
  (os_path_exists test_stimuli_path (fs w) = true ->
   os_path_exists practice_stimuli_path (fs w) = true ->
   os_path_exists pics_path (fs w) = true ->
   forall fs1 fs2,
     (if os_path_exists results_path (fs w) then Ok (fs w)
      else mkdir_at results_path (fs w)) = Ok fs1 ->
     (if os_path_exists random_path fs1 then Ok fs1 else mkdir_at random_path fs1) = Ok fs2 ->
     check_config_paths test_stimuli_path practice_stimuli_path results_path
                        pics_path random_path w
     = Some (Ok tt, set_fs fs2 w) /\
     os_path_exists results_path fs2 = true /\ os_path_exists random_path fs2 = true) /\
  (forall parent name n entries,
     lookup parent n = Some (Dir entries) -> lookup (parent ++ [name]) n = None ->
     exists n', mkdir_at (parent ++ [name]) n = Ok n').
Proof.
  split; [|split; [|split]].
  - split.
    + intros (msg & w' & H). apply required_present_false.
      now destruct (check_config_paths_Exception _ _ _ _ _ _ _ _ H).
    + intros H. apply required_present_false in H.
      destruct (check_config_paths_missing _ _ results_path _ random_path _ H) as [msg Hrun].
      eauto.
  - intros msg w' H. now destruct (check_config_paths_Exception _ _ _ _ _ _ _ _ H).
  - intros Ht Hp Hpics fs1 fs2 H1 H2.
    rewrite check_config_paths_present
      by (unfold required_present; now rewrite Ht, Hp, Hpics).
    now apply check_config_paths_tail_ok with fs1.
  - intros parent name n entries. apply mkdir_new.
Qed.

(** ** Concrete runs *)

(** C2 (amended). For the default-family identifier
    [expA_spk1_o1_o2_o3_o4_3_wordA_cond1.wav] (nine segments, neither
    [single] nor [gating] in it) [extract_filename_info] returns trial
    [3], stimulus origin [o1_o2_o3_o4], condition [cond1], and as stimulus
    name the joined segments from the eighth on, [wordA_cond1]: the
    condition segment is part of the name. *)
Theorem extract_default_family_example :
  List.length (Py.split "expA_spk1_o1_o2_o3_o4_3_wordA_cond1.wav" "_") = 9 /\
  Py.contains "single" "expA_spk1_o1_o2_o3_o4_3_wordA_cond1.wav" = false /\
  Py.contains "gating" "expA_spk1_o1_o2_o3_o4_3_wordA_cond1.wav" = false /\
  exists info,
    extract_filename_info "expA_spk1_o1_o2_o3_o4_3_wordA_cond1.wav" = Ok info /\
    trial info = "3" /\
    stimulus_origin info = "o1_o2_o3_o4" /\
    name_stim info = "wordA_cond1" /\
    condition info = "cond1" /\
    exp info = "expA" /\ speaker info = "spk1" /\
    filename info = "expA_spk1_o1_o2_o3_o4_3_wordA_cond1.wav".
Proof.
  repeat split.
  eexists. split; [reflexivity|]. repeat split.
Qed.

(** C2, as stated, fails: the stimulus name the code returns for that
    identifier is not [wordA]. *)
Lemma extract_default_family_name_is_not_wordA :
  exists info,
    extract_filename_info "expA_spk1_o1_o2_o3_o4_3_wordA_cond1.wav" = Ok info /\
    name_stim info <> "wordA".
Proof.
  eexists. split; [reflexivity|]. simpl. discriminate.
Qed.

(** C1 on the example installation: three test stimuli, two calls. *)
Lemma resume_drops_first_stimulus_witness :
  exists w1,
    load_and_randomize ["stimuli"; "test"] example_info "test" example_world
    = Some (Ok (["expA_spk3_o1_o2_o3_o9_5_wordC_cond1.wav";
                 "expA_spk2_o5_o6_o7_o8_4_wordB_cond2.wav";
                 "expA_spk1_o1_o2_o3_o4_3_wordA_cond1.wav"],
                ["results"; "L01"; "L01_test_progress.csv"]), w1) /\
    load_and_randomize ["stimuli"; "test"] example_info "test" w1
    = Some (Ok (["expA_spk2_o5_o6_o7_o8_4_wordB_cond2.wav";
                 "expA_spk1_o1_o2_o3_o4_3_wordA_cond1.wav"],
                ["results"; "L01"; "L01_test_progress.csv"]),
            add_stdout
              (LoadedExisting ["randomization_lists"; "L01"; "test_randomized_stimuli.csv"])
              w1).
Proof.
  eexists. split.
  - lazy. reflexivity.
  - apply (resume_drops_first_stimulus ["stimuli"; "test"] example_info example_world _
             ["expA_spk3_o1_o2_o3_o9_5_wordC_cond1.wav";
              "expA_spk2_o5_o6_o7_o8_4_wordB_cond2.wav";
              "expA_spk1_o1_o2_o3_o4_3_wordA_cond1.wav"]
             ["results"; "L01"; "L01_test_progress.csv"]).
    + reflexivity.
    + lazy. reflexivity.
Defined.

(** C6 on an installation where the first practice stimulus is already in
    the progress log. *)
Lemma practice_phase_is_not_randomized_witness :
  load_and_randomize ["stimuli"; "practice"] example_info "practice" practice_resumed_world
  = Some (Ok (["expA_spk2_o1_o2_o3_o4_2_wordQ_cond2.wav"],
              ["results"; "L01"; "L01_practice_progress.csv"]),
          practice_resumed_world).
Proof.
  exact (proj1 (practice_phase_is_not_randomized
                  ["stimuli"; "practice"] example_info practice_resumed_world
                  (fs practice_resumed_world)
                  ["expA_spk1_o1_o2_o3_o4_1_wordP_cond1.wav"]
                  eq_refl eq_refl)).
Defined.

(** C7 on the example installation. *)
Lemma first_test_call_randomizes_full_set_witness :
  exists randomized w',
    load_and_randomize ["stimuli"; "test"] example_info "test" example_world
    = Some (Ok (map filename randomized, ["results"; "L01"; "L01_test_progress.csv"]), w') /\
    read_at ["randomization_lists"; "L01"; "test_randomized_stimuli.csv"] (fs w')
    = Ok (map (fun stimulus => [stimulus]) (map filename randomized)) /\
    Permutation ["expA_spk1_o1_o2_o3_o4_3_wordA_cond1.wav";
                 "expA_spk3_o1_o2_o3_o9_5_wordC_cond1.wav";
                 "expA_spk2_o5_o6_o7_o8_4_wordB_cond2.wav"]
                (map filename randomized).
Proof.
  destruct (first_test_call_randomizes_full_set
              ["stimuli"; "test"] example_info example_world _ _ _
              eq_refl eq_refl eq_refl eq_refl)
    as (randomized & w_r & w' & _ & Hcall & Hread & _ & _ & HP).
  exists randomized, w'. repeat split; assumption.
Defined.

(** C9, as stated, fails.  The three required directories exist and the
    results directory is to be created below a directory that does not
    exist: [check_config_paths] raises although nothing required is missing.  With the roles of the two
    output directories exchanged, it raises after the results directory
    has been created. *)
Lemma check_config_paths_raises_with_all_required_present :
  os_path_exists ["stimuli"; "test"] (fs required_only_world) = true /\
  os_path_exists ["stimuli"; "practice"] (fs required_only_world) = true /\
  os_path_exists ["pics"] (fs required_only_world) = true /\
  check_config_paths ["stimuli"; "test"] ["stimuli"; "practice"] ["output"; "results"]
                     ["pics"] ["randomization_lists"] required_only_world
  = Some (Raise FileNotFoundError, required_only_world) /\
  check_config_paths ["stimuli"; "test"] ["stimuli"; "practice"] ["results"]
                     ["pics"] ["output"; "randomization_lists"] required_only_world
  = Some (Raise FileNotFoundError,
          set_fs (Dir [("stimuli", Dir [("test", Dir []); ("practice", Dir [])]);
                       ("pics", Dir []); ("results", Dir [])])
                 required_only_world) /\
  os_path_exists ["results"] (fs required_only_world) = false.
Proof. repeat split. Qed.

(** ** Further properties of the randomizer and the extractor *)

Lemma sum_bool_snoc (f : Stimulus -> string) v l s :
  Py.sum_bool (fun stim => (f stim =? v)%string) (l ++ [s])
  = Py.sum_bool (fun stim => (f stim =? v)%string) l + (if (f s =? v)%string then 1 else 0).
Proof.
  unfold Py.sum_bool. rewrite filter_app, length_app. simpl.
  now destruct (f s =? v)%string.
Qed.

Lemma caps_respected_snoc out s :
  caps_respected out -> within_caps out s = true -> caps_respected (out ++ [s]).
Proof.
  intros Hout Hs v. apply within_caps_iff in Hs.
  destruct Hs as (Hc & Hn & Hsp & Ho). destruct (Hout v) as (Hc' & Hn' & Hsp' & Ho').
  rewrite !sum_bool_snoc. repeat split.
  - destruct (String.eqb_spec (condition s) v); [subst v|]; lia.
  - destruct (String.eqb_spec (name_stim s) v); [subst v|]; lia.
  - destruct (String.eqb_spec (speaker s) v); [subst v|]; lia.
  - destruct (String.eqb_spec (stimulus_origin s) v); [subst v|]; lia.
Qed.

Lemma while_loop_quota pool : forall out w,
  caps_respected out ->
  exists placed rest w',
    while_loop (List.length pool) pool out w = Some (Ok (placed ++ rest), w') /\
    caps_respected placed /\
    ((rest = [] /\ stdout w' = stdout w) \/
     (rest <> [] /\ (forall s, In s rest -> within_caps placed s = false) /\
      stdout w' = stdout w ++ [WarnUnsatisfiable])).
Proof.
  remember (List.length pool) as k eqn:Hk.
  revert pool Hk. induction k as [|k IH]; intros pool Hk out w Hout.
  - destruct pool; [|discriminate]. exists out, [], w.
    rewrite app_nil_r. auto.
  - destruct pool as [|s pool]; [discriminate|].
    rewrite while_loop_step.
    destruct (find (within_caps out) (s :: pool)) as [t|] eqn:Hf.
    + destruct (loop_body_select _ _ _ w Hf) as (pool' & _ & -> & _ & HL).
      destruct (find_some _ _ Hf) as [_ Ht].
      assert (Hk' : k = List.length pool') by (simpl in *; lia).
      apply (IH pool' Hk' (out ++ [t]) w). now apply caps_respected_snoc.
    + rewrite (loop_body_flush _ _ w Hf).
      exists out, (s :: pool), (add_stdout WarnUnsatisfiable w).
      repeat split; try apply Hout.
      right. repeat split; [discriminate|].
      now apply find_none_iff.
Qed.

(** X1. The quota kept by the selection path, for every input: the result is
    the records placed by selection followed by the flushed rest; among the
    placed records no condition or origin occurs more than 4 times and no
    stimulus name or speaker more than 3 times; the rest is empty, or each
    of its records is rejected by the caps against the placed records and
    the warning was printed. *)
Theorem selection_keeps_quota (stimulus_data : list Stimulus) (w : World) :
  exists placed rest w',
    constraint_randomization stimulus_data w = Some (Ok (placed ++ rest), w') /\
    caps_respected placed /\
    ((rest = [] /\ stdout w' = stdout w) \/
     (rest <> [] /\ (forall s, In s rest -> within_caps placed s = false) /\
      stdout w' = stdout w ++ [WarnUnsatisfiable])).
Proof.
  unfold constraint_randomization, bind.
  destruct (random_shuffle_spec stimulus_data w) as (pool & g & -> & _).
  apply (while_loop_quota pool [] (set_rng g w)).
  intros v. unfold Py.sum_bool. simpl. lia.
Qed.

(** X2. Empty and one-element inputs come back unchanged; no random number is
    drawn and nothing is printed. *)
Theorem randomization_of_small_inputs (stimulus : Stimulus) (w : World) :
  (exists w', constraint_randomization [] w = Some (Ok [], w') /\
              rng w' = rng w /\ stdout w' = stdout w) /\
  (exists w', constraint_randomization [stimulus] w = Some (Ok [stimulus], w') /\
              rng w' = rng w /\ stdout w' = stdout w).
Proof.
  split; exists (set_rng (rng w) w); repeat split.
  change (constraint_randomization [stimulus] w)
    with (while_loop 1 [stimulus] [] (set_rng (rng w) w)).
  rewrite while_loop_step, loop_body_head by reflexivity.
  apply while_loop_nil.
Qed.

(** ** The extractor on every identifier *)

Lemma split_go_nonempty sep s : forall skip cur, Py.split_go sep skip cur s <> [].
Proof.
  induction s as [|c s IH]; intros skip cur; cbn [Py.split_go]; [discriminate|].
  destruct skip; [|apply IH].
  destruct (String.prefix sep (String c s)); [discriminate|apply IH].
Qed.

Lemma getitem_nat {A} (l : list A) (i : nat) :
  Py.getitem l (Z.of_nat i)
  = match nth_error l i with
    | Some a => Ok a
    | None => Raise IndexError
    end.
Proof.
  unfold Py.getitem.
  destruct (Z.ltb_spec (Z.of_nat i) 0) as [Hneg|_]; [lia|].
  rewrite (proj2 (Z.ltb_ge _ _)) by lia. simpl orb.
  rewrite Nat2Z.id.
  destruct (Z.leb_spec (Z.of_nat (List.length l)) (Z.of_nat i)) as [Hle|Hlt].
  - rewrite (proj2 (nth_error_None l i)) by lia. reflexivity.
  - reflexivity.
Qed.

Lemma getitem_last {A} (l : list A) (d : A) :
  l <> [] -> Py.getitem l (-1) = Ok (last l d).
Proof.
  intros Hne. unfold Py.getitem. change (-1 <? 0)%Z with true. cbv iota.
  assert (Hlen : 0 < List.length l) by (destruct l; [congruence|simpl; lia]).
  rewrite (proj2 (Z.ltb_ge _ _)) by lia.
  rewrite (proj2 (Z.leb_gt _ _)) by lia. simpl orb. cbv iota.
  replace (Z.to_nat (Z.of_nat (List.length l) + -1)) with (List.length l - 1) by lia.
  clear Hlen. induction l as [|a l IH]; [congruence|].
  destruct l as [|b l]; [reflexivity|].
  replace (List.length (a :: b :: l) - 1) with (S (List.length (b :: l) - 1))
    by (simpl; lia).
  cbn [nth_error]. rewrite IH by discriminate. reflexivity.
Qed.

Lemma strip_wav_ok x : strip_wav x = Ok (hd "" (Py.split x ".wav")).
Proof.
  unfold strip_wav, Py.split.
  pose proof (split_go_nonempty ".wav" x 0 "") as Hne.
  destruct (Py.split_go ".wav" 0 "" x); [congruence|reflexivity].
Qed.

Lemma extract_filename_info_cases (file : string) :
  (List.length (Py.split file "_") < segments_needed file ->
   extract_filename_info file = Raise IndexError) /\
  (segments_needed file <= List.length (Py.split file "_") ->
   exists info,
     extract_filename_info file = Ok info /\
     filename info = file /\
     exp info = nth 0 (Py.split file "_") "" /\
     speaker info = nth 1 (Py.split file "_") "" /\
     trial info = nth (segments_needed file - 1) (Py.split file "_") "" /\
     condition info = hd "" (Py.split (last (Py.split file "_") "") ".wav")).
Proof.
  unfold extract_filename_info, segments_needed.
  set (parts := Py.split file "_").
  assert (Hlast : forall d, parts <> [] -> Py.getitem parts (-1) = Ok (last parts d))
    by (intros; now apply getitem_last).
  change 0%Z with (Z.of_nat 0). change 1%Z with (Z.of_nat 1).
  change 2%Z with (Z.of_nat 2). change 3%Z with (Z.of_nat 3).
  change 4%Z with (Z.of_nat 4). change 6%Z with (Z.of_nat 6).
  rewrite !getitem_nat.
  destruct (Py.contains "single" file); [|destruct (Py.contains "gating" file)].
  - destruct parts as [|p0 [|p1 [|p2 [|p3 [|p4 rest]]]]];
      (split; [intros Hl|intros Hl; simpl in Hl; try lia]); try reflexivity;
      try (simpl in Hl; lia).
    cbn [nth_error result_bind]. rewrite strip_wav_ok. cbn [result_bind].
    rewrite (Hlast "") by discriminate. cbn [result_bind].
    rewrite strip_wav_ok. cbn [result_bind].
    eexists. split; [reflexivity|]. repeat split.
  - destruct parts as [|p0 [|p1 [|p2 [|p3 rest]]]];
      (split; [intros Hl|intros Hl; simpl in Hl; try lia]); try reflexivity;
      try (simpl in Hl; lia).
    cbn [nth_error result_bind]. rewrite strip_wav_ok. cbn [result_bind].
    rewrite (Hlast "") by discriminate. cbn [result_bind].
    rewrite strip_wav_ok. cbn [result_bind].
    eexists. split; [reflexivity|]. repeat split.
  - destruct parts as [|p0 [|p1 [|p2 [|p3 [|p4 [|p5 [|p6 rest]]]]]]];
      (split; [intros Hl|intros Hl; simpl in Hl; try lia]); try reflexivity;
      try (simpl in Hl; lia).
    cbn [nth_error result_bind]. rewrite strip_wav_ok. cbn [result_bind].
    rewrite (Hlast "") by discriminate. cbn [result_bind].
    rewrite strip_wav_ok. cbn [result_bind].
    eexists. split; [reflexivity|]. repeat split.
Qed.

(** X3. [extract_filename_info] on any identifier: it reads segment 4 of a
    [single] identifier, segment 3 of a [gating] identifier and segment 6
    of any other, and raises [IndexError] exactly when the identifier has
    fewer segments than that needs (5, 4 and 7).  Otherwise it returns a
    record that keeps the identifier, takes the experiment and the speaker
    from the first two segments and the condition from the last segment
    cut at [.wav]. *)
Theorem extract_filename_info_needs_segments (file : string) :
  (List.length (Py.split file "_") < segments_needed file ->
   extract_filename_info file = Raise IndexError) /\
  (segments_needed file <= List.length (Py.split file "_") ->
   exists info,
     extract_filename_info file = Ok info /\
     filename info = file /\
     exp info = nth 0 (Py.split file "_") "" /\
     speaker info = nth 1 (Py.split file "_") "" /\
     trial info = nth (segments_needed file - 1) (Py.split file "_") "" /\
     condition info = hd "" (Py.split (last (Py.split file "_") "") ".wav")).
Proof. apply extract_filename_info_cases. Qed.

Lemma extract_filename_info_raises file e :
  extract_filename_info file = Raise e ->
  e = IndexError /\ List.length (Py.split file "_") < segments_needed file.
Proof.
  intros H. destruct (extract_filename_info_cases file) as [Hshort Hlong].
  destruct (Nat.lt_ge_cases (List.length (Py.split file "_")) (segments_needed file))
    as [Hlt|Hge].
  - rewrite (Hshort Hlt) in H. injection H as <-. auto.
  - destruct (Hlong Hge) as (info & Hok & _). congruence.
Qed.

Lemma comprehension_extract_ok files :
  (forall file, In file files -> segments_needed file <= List.length (Py.split file "_")) ->
  exists data, comprehension extract_filename_info files = Ok data.
Proof.
  induction files as [|file files IH]; intros Hall; simpl; [eauto|].
  destruct (extract_filename_info_cases file) as [_ Hlong].
  destruct (Hlong (Hall file (or_introl eq_refl))) as (info & -> & _).
  destruct IH as [data ->]; [intros f Hf; apply Hall; now right|].
  simpl. eauto.
Qed.

Lemma comprehension_extract_raises files :
  (exists file, In file files /\
                List.length (Py.split file "_") < segments_needed file) ->
  comprehension extract_filename_info files = Raise IndexError.
Proof.
  induction files as [|file files IH]; intros (bad & Hin & Hbad); [destruct Hin|].
  simpl. destruct (extract_filename_info file) as [info|e] eqn:Hx.
  - destruct Hin as [->|Hin].
    + destruct (extract_filename_info_cases bad) as [Hshort _].
      rewrite (Hshort Hbad) in Hx. discriminate.
    + simpl. rewrite IH by eauto. reflexivity.
  - simpl. now destruct (extract_filename_info_raises _ _ Hx) as [-> _].
Qed.

(** X4. [randomize_stimuli] on any list of identifiers: when every
    identifier has the segments its family needs, the result is a
    permutation of the input; when one is too short, the call raises
    [IndexError] before anything is shuffled or printed. *)
Theorem randomize_stimuli_permutes_or_raises (stimuli_files : list string) (w : World) :
  ((forall file, In file stimuli_files ->
                 segments_needed file <= List.length (Py.split file "_")) ->
   exists randomized_stimuli w',
     randomize_stimuli stimuli_files w = Some (Ok randomized_stimuli, w') /\
     Permutation stimuli_files randomized_stimuli /\
     List.length randomized_stimuli = List.length stimuli_files /\
     fs w' = fs w) /\
  ((exists file, In file stimuli_files /\
                 List.length (Py.split file "_") < segments_needed file) ->
   randomize_stimuli stimuli_files w = Some (Raise IndexError, w)).
Proof.
  split.
  - intros Hall. destruct (comprehension_extract_ok _ Hall) as [data Hdata].
    destruct (randomize_stimuli_spec _ _ w Hdata) as (out & w' & _ & Hrun & _ & HP & Hfs).
    exists (map filename out), w'. repeat split; auto.
    symmetry. now apply Permutation_length.
  - intros Hbad. apply randomize_stimuli_raises. now apply comprehension_extract_raises.
Qed.

(** ** What the walk finds *)

Lemma find_entry_In c es x : find_entry c es = Some x -> In (c, x) es.
Proof.
  induction es as [|[n y] es IH]; simpl; [discriminate|].
  destruct (String.eqb_spec n c) as [->|_].
  - intros [= ->]. now left.
  - intros H. right. now apply IH.
Qed.

Lemma lookup_app p : forall q n,
  lookup (p ++ q) n
  = match lookup p n with
    | Some d => lookup q d
    | None => None
    end.
Proof.
  induction p as [|c p IH]; intros q n; [reflexivity|].
  destruct n as [rows|es]; [reflexivity|].
  change ((c :: p) ++ q) with (c :: (p ++ q)). rewrite !lookup_cons.
  destruct (find_entry c es); [apply IH|reflexivity].
Qed.

Lemma wav_names_complete sub : forall n name rows,
  lookup (sub ++ [name]) n = Some (File rows) ->
  Py.endswith name ".wav" = true ->
  In name (wav_names n).
Proof.
  induction sub as [|d sub IH]; intros n name rows Hl Hwav.
  - destruct n as [old|es]; [discriminate Hl|].
    change ([] ++ [name]) with [name] in Hl. rewrite lookup_cons in Hl.
    destruct (find_entry name es) as [x|] eqn:Hf; [|discriminate].
    simpl in Hl. injection Hl as ->.
    rewrite wav_names_Dir. apply in_or_app. left.
    apply filter_In. split; [|exact Hwav].
    unfold file_names. apply in_map_iff. exists (name, File rows). split; [reflexivity|].
    apply filter_In. split; [now apply find_entry_In|reflexivity].
  - destruct n as [old|es]; [discriminate Hl|].
    change ((d :: sub) ++ [name]) with (d :: (sub ++ [name])) in Hl.
    rewrite lookup_cons in Hl.
    destruct (find_entry d es) as [child|] eqn:Hf; [|discriminate].
    rewrite wav_names_Dir. apply in_or_app. right.
    unfold sub_wav_names. apply in_flat_map. exists (d, child).
    split; [now apply find_entry_In|]. simpl. now apply (IH child name rows).
Qed.

Lemma wav_names_endswith n : Forall (fun name => Py.endswith name ".wav" = true) (wav_names n).
Proof.
  induction n as [rows|es IH] using node_induction; [constructor|].
  rewrite wav_names_Dir. apply Forall_app. split.
  - apply Forall_forall. intros name Hin. now apply filter_In in Hin.
  - unfold sub_wav_names. apply Forall_forall. intros name Hin.
    apply in_flat_map in Hin. destruct Hin as (e & He & Hname).
    rewrite Forall_forall in IH. specialize (IH e He).
    rewrite Forall_forall in IH. now apply IH.
Qed.

(** X5. [load_stimuli] enumerates recursively and by base name: a file
    whose name ends in [.wav], at any depth below the stimulus directory,
    is in the list returned without a progress file, under its base name;
    every name in that list ends in [.wav].  With a progress file the name
    is returned exactly when the progress log does not list it. *)
Theorem load_stimuli_finds_nested_files
    (stimuli_path subdirectories : path) (name : string) (rows : csv_rows) (w : World) :
  lookup (stimuli_path ++ subdirectories ++ [name]) (fs w) = Some (File rows) ->
  Py.endswith name ".wav" = true ->
  (exists stimuli,
     load_stimuli stimuli_path None w = Some (Ok stimuli, w) /\
     In name stimuli /\
     Forall (fun stimulus => Py.endswith stimulus ".wav" = true) stimuli) /\
  (forall progress_file labeled_stimuli,
     load_progress progress_file w = Some (Ok labeled_stimuli, w) ->
     exists stimuli,
       load_stimuli stimuli_path (Some progress_file) w = Some (Ok stimuli, w) /\
       (In name stimuli <-> ~ In name labeled_stimuli)).
Proof.
  intros Hl Hwav.
  assert (Hin : In name (all_stimuli stimuli_path (fs w))).
  { rewrite all_stimuli_lookup. rewrite lookup_app in Hl.
    destruct (lookup stimuli_path (fs w)) as [d|]; [|discriminate].
    now apply (wav_names_complete subdirectories d name rows). }
  split.
  - exists (all_stimuli stimuli_path (fs w)). repeat split; auto.
    rewrite all_stimuli_lookup.
    destruct (lookup stimuli_path (fs w)); [apply wav_names_endswith|constructor].
  - intros pf labeled Hprog.
    rewrite (load_stimuli_progress stimuli_path _ _ _ _ Hprog).
    eexists. split; [reflexivity|].
    rewrite filter_In. unfold str_in. split.
    + intros [_ Hneg] Hlab. apply negb_true_iff in Hneg.
      assert (Hex : existsb (fun y => (y =? name)%string) labeled = true).
      { apply existsb_exists. exists name. split; [exact Hlab|apply String.eqb_refl]. }
      congruence.
    + intros Hnot. split; [exact Hin|]. apply negb_true_iff.
      destruct (existsb (fun y => (y =? name)%string) labeled) eqn:Hex; [|reflexivity].
      apply existsb_exists in Hex. destruct Hex as (y & Hy & Heq).
      apply String.eqb_eq in Heq. subst y. contradiction.
Qed.

(** A stimulus in a speaker subdirectory of the example installation. *)
Lemma load_stimuli_finds_nested_files_witness :
  exists stimuli,
    load_stimuli ["stimuli"; "test"] None example_world = Some (Ok stimuli, example_world) /\
    In "expA_spk2_o5_o6_o7_o8_4_wordB_cond2.wav" stimuli.
Proof.
  destruct (load_stimuli_finds_nested_files
              ["stimuli"; "test"] ["spk2"] "expA_spk2_o5_o6_o7_o8_4_wordB_cond2.wav" []
              example_world eq_refl eq_refl)
    as [(stimuli & Hrun & Hin & _) _].
  exists stimuli. split; assumption.
Defined.

(** ** The path check, called again *)

(** X6. A call of [check_config_paths] that returned normally has left all
    five paths in existence, and calling it again with the same arguments
    returns normally and changes nothing. *)
Theorem check_config_paths_idempotent
    (test_stimuli_path practice_stimuli_path results_path pics_path random_path : path)
    (w w' : World) :
  check_config_paths test_stimuli_path practice_stimuli_path results_path
                     pics_path random_path w = Some (Ok tt, w') ->
  check_config_paths test_stimuli_path practice_stimuli_path results_path
                     pics_path random_path w' = Some (Ok tt, w') /\
  os_path_exists test_stimuli_path (fs w') = true /\
  os_path_exists practice_stimuli_path (fs w') = true /\
  os_path_exists pics_path (fs w') = true /\
  os_path_exists results_path (fs w') = true /\
  os_path_exists random_path (fs w') = true /\
  rng w' = rng w /\ stdout w' = stdout w.
Proof.
  intros Hrun.
  destruct (required_present test_stimuli_path practice_stimuli_path pics_path (fs w))
    eqn:Hreq.
  2:{ destruct (check_config_paths_missing _ _ results_path _ random_path _ Hreq)
        as [msg Hraise]. congruence. }
  rewrite (check_config_paths_present _ _ _ _ _ _ Hreq) in Hrun.
  destruct (check_config_paths_tail results_path random_path w)
    as [(e & w0 & Hraise & _)|(fs1 & fs2 & H1 & H2 & Hok & Hr & Hrnd)]; [congruence|].
  rewrite Hok in Hrun. injection Hrun as <-.
  assert (Hkeep : forall q, os_path_exists q (fs w) = true -> os_path_exists q fs2 = true).
  { intros q Hq.
    assert (Hq1 : os_path_exists q fs1 = true).
    { destruct (os_path_exists results_path (fs w)).
      - now injection H1 as <-.
      - now apply (mkdir_preserves_exists _ _ _ _ H1). }
    destruct (os_path_exists random_path fs1).
    - now injection H2 as <-.
    - now apply (mkdir_preserves_exists _ _ _ _ H2). }
  unfold required_present in Hreq. rewrite !andb_true_iff in Hreq.
  destruct Hreq as [[Ht Hp] Hpics].
  apply Hkeep in Ht, Hp, Hpics.
  change (fs (set_fs fs2 w)) with fs2.
  repeat split; auto.
  rewrite check_config_paths_present
    by (unfold required_present; change (fs (set_fs fs2 w)) with fs2;
        now rewrite Ht, Hp, Hpics).
  apply (check_config_paths_tail_ok results_path random_path (set_fs fs2 w) fs2 fs2);
    change (fs (set_fs fs2 w)) with fs2.
  - now rewrite Hr.
  - now rewrite Hrnd.
Qed.

(** On an installation that has only the required directories. *)
Lemma check_config_paths_idempotent_witness :
  exists w',
    check_config_paths ["stimuli"; "test"] ["stimuli"; "practice"] ["results"]
                       ["pics"] ["randomization_lists"] required_only_world
    = Some (Ok tt, w') /\
    check_config_paths ["stimuli"; "test"] ["stimuli"; "practice"] ["results"]
                       ["pics"] ["randomization_lists"] w'
    = Some (Ok tt, w') /\
    os_path_exists ["randomization_lists"] (fs w') = true.
Proof.
  eexists. split; [lazy; reflexivity|].
  destruct (check_config_paths_idempotent
              ["stimuli"; "test"] ["stimuli"; "practice"] ["results"]
              ["pics"] ["randomization_lists"] required_only_world _ eq_refl)
    as (Hagain & _ & _ & _ & _ & Hrnd & _).
  split; assumption.
Defined.

(** ** The test phase with an order file, and with a malformed identifier *)

Lemma lookup_parent_dir d c n x :
  lookup (d ++ [c]) n = Some x -> exists es, lookup d n = Some (Dir es).
Proof.
  rewrite lookup_app. destruct (lookup d n) as [[rows|es]|]; try discriminate; eauto.
Qed.

(** X7. Test phase with an order file in place: whatever the stimulus
    directory and the progress log hold, [load_and_randomize] returns the
    first fields of the file's rows after the first row, which it takes
    for a header; it draws no random number and changes nothing but the
    results directory it creates. *)
Theorem persisted_order_read_after_first_row
    (participant_info : ParticipantInfo) (w : World) (fs1 : node)
    (rows : csv_rows) (stimuli : list string) :
  read_at (randomized_file_path participant_info "test") (fs w) = Ok rows ->
  first_fields (tl rows) = Ok stimuli ->
  makedirs_at (progress_directory participant_info) (fs w) = Ok fs1 ->
  forall stimuli_path,
    load_and_randomize stimuli_path participant_info "test" w
    = Some (Ok (stimuli, progress_file_path participant_info "test"),
            add_stdout (LoadedExisting (randomized_file_path participant_info "test"))
                       (set_fs fs1 w)).
Proof.
  intros Hr Hf H1 stimuli_path.
  assert (Hfile : exists old,
            lookup (randomized_file_path participant_info "test") (fs w) = Some (File old)
            /\ old = rows).
  { unfold read_at in Hr.
    destruct (lookup (randomized_file_path participant_info "test") (fs w)) as [[old|es]|];
      try discriminate. injection Hr as ->. eauto. }
  destruct Hfile as (old & Hlook & ->).
  destruct (lookup_parent_dir _ _ _ _ Hlook) as [es Hrd].
  destruct (makedirs_preserves_dir _ _ _ _ _ H1 Hrd) as [es' Hrd'].
  assert (Hlook1 : lookup (randomized_file_path participant_info "test") fs1
                   = Some (File rows)).
  { rewrite (makedirs_lookup_other _ _ _ _ H1); [exact Hlook|].
    apply not_prefix_longer. unfold randomized_file_path. rewrite length_app. simpl. lia. }
  unfold load_and_randomize.
  rewrite (bind_ok _ _ _ _ _ (os_makedirs_ok _ _ _ H1)).
  change ("test" =? "practice")%string with false. cbv iota.
  rewrite (bind_ok _ _ _ _ _
             (os_makedirs_ok _ (set_fs fs1 w) _ (makedirs_existing _ fs1 _ Hrd'))).
  change (set_fs fs1 (set_fs fs1 w)) with (set_fs fs1 w).
  rewrite (bind_ok _ _ _ _ _ (exists_run _ _)).
  change (fs (set_fs fs1 w)) with fs1.
  unfold os_path_exists at 1. rewrite Hlook1.
  unfold bind, csv_read, lift, print, ret, read_at.
  change (fs (set_fs fs1 w)) with fs1. now rewrite Hlook1, Hf.
Qed.

Lemma persisted_order_read_after_first_row_witness :
  exists w',
    load_and_randomize ["stimuli"; "test"] example_info "test" order_with_header_world
    = Some (Ok (["expA_spk3_o1_o2_o3_o9_5_wordC_cond1.wav";
                 "expA_spk1_o1_o2_o3_o4_3_wordA_cond1.wav"],
                ["results"; "L01"; "L01_test_progress.csv"]), w') /\
    rng w' = rng order_with_header_world.
Proof.
  eexists. split.
  - exact (persisted_order_read_after_first_row
             example_info order_with_header_world _ _ _ eq_refl eq_refl eq_refl
             ["stimuli"; "test"]).
  - reflexivity.
Defined.

(** X8. First test-phase call with an identifier that has too few
    segments among the enumerated stimuli: the call raises [IndexError];
    the two directories have been created, but no order file is written,
    no random number is drawn and nothing is printed. *)
Theorem malformed_identifier_aborts_first_test_call
    (stimuli_path : path) (participant_info : ParticipantInfo) (w : World)
    (fs1 fs2 : node) (file : string) :
  makedirs_at (progress_directory participant_info) (fs w) = Ok fs1 ->
  makedirs_at (randomization_directory participant_info) fs1 = Ok fs2 ->
  os_path_exists (randomized_file_path participant_info "test") (fs w) = false ->
  In file (all_stimuli stimuli_path (fs w)) ->
  List.length (Py.split file "_") < segments_needed file ->
  load_and_randomize stimuli_path participant_info "test" w
  = Some (Raise IndexError, set_fs fs2 w) /\
  os_path_exists (randomized_file_path participant_info "test") fs2 = false.
Proof.
  intros H1 H2 Hx Hin Hshort.
  assert (Hall : all_stimuli stimuli_path fs2 = all_stimuli stimuli_path (fs w)).
  { now rewrite (all_stimuli_makedirs _ _ _ _ H2), (all_stimuli_makedirs _ _ _ _ H1). }
  assert (Hx2 : os_path_exists (randomized_file_path participant_info "test") fs2 = false).
  { unfold os_path_exists in *.
    now rewrite (randomized_file_not_created _ _ _ _ _ H1 H2). }
  split; [|exact Hx2].
  assert (Hdata : comprehension extract_filename_info (all_stimuli stimuli_path (fs w))
                  = Raise IndexError)
    by (apply comprehension_extract_raises; eauto).
  unfold load_and_randomize.
  rewrite (bind_ok _ _ _ _ _ (os_makedirs_ok _ _ _ H1)).
  change ("test" =? "practice")%string with false. cbv iota.
  rewrite (bind_ok _ _ _ _ _ (os_makedirs_ok _ (set_fs fs1 w) _ H2)).
  rewrite (bind_ok _ _ _ _ _ (exists_run _ _)).
  change (set_fs fs2 (set_fs fs1 w)) with (set_fs fs2 w).
  change (fs (set_fs fs2 w)) with fs2. rewrite Hx2.
  assert (Hinner :
    (stimuli_files <- load_stimuli stimuli_path None ;;
     randomized_stimuli <- randomize_stimuli stimuli_files ;;
     csv_write (randomized_file_path participant_info "test")
               (map (fun stimulus => [stimulus]) randomized_stimuli) ;;;
     print (SavedNew (randomized_file_path participant_info "test")) ;;;
     ret randomized_stimuli) (set_fs fs2 w)
    = Some (Raise IndexError, set_fs fs2 w)).
  { rewrite (bind_ok _ _ _ _ _ (load_stimuli_None _ _)).
    change (fs (set_fs fs2 w)) with fs2. rewrite Hall.
    now rewrite (bind_raise _ _ _ _ _ (randomize_stimuli_raises _ _ _ Hdata)). }
  now rewrite (bind_raise _ _ _ _ _ Hinner).
Qed.

Lemma malformed_identifier_aborts_first_test_call_witness :
  exists w',
    load_and_randomize ["stimuli"; "test"] example_info "test" stray_file_world
    = Some (Raise IndexError, w') /\
    os_path_exists ["randomization_lists"; "L01"; "test_randomized_stimuli.csv"] (fs w')
    = false /\
    os_path_exists ["randomization_lists"; "L01"] (fs w') = true.
Proof.
  destruct (malformed_identifier_aborts_first_test_call
              ["stimuli"; "test"] example_info stray_file_world _ _ "beep.wav"
              eq_refl eq_refl eq_refl)
    as [Hrun Hnone].
  - simpl. auto.
  - apply Nat.ltb_lt. reflexivity.
  - eexists. split; [exact Hrun|]. split; [exact Hnone|reflexivity].
Defined.

(** ** Appending to files *)

Lemma append_Dir_inv c p' rows es n' :
  append_at (c :: p') rows (Dir es) = Ok n' ->
  match p' with
  | [] =>
      (exists old, find_entry c es = Some (File old) /\
                   n' = Dir (set_entry c (File (old ++ rows)) es)) \/
      (find_entry c es = None /\ n' = Dir (es ++ [(c, File rows)]))
  | _ :: _ =>
      exists child child',
        find_entry c es = Some child /\ append_at p' rows child = Ok child' /\
        n' = Dir (set_entry c child' es)
  end.
Proof.
  simpl. destruct p' as [|c' p''].
  - destruct (find_entry c es) as [[old|sub]|]; intros [= <-]; eauto.
  - destruct (find_entry c es) as [child|]; [|discriminate].
    destruct (append_at (c' :: p'') rows child) as [child'|e] eqn:Hw; simpl; [|discriminate].
    intros [= <-]. eauto.
Qed.

(** After [open(p, 'a')] and the writes, [p] holds its old rows and the new. *)
Lemma append_lookup_self p : forall rows n n',
  append_at p rows n = Ok n' -> lookup p n' = Some (File (file_rows p n ++ rows)).
Proof.
  unfold file_rows.
  induction p as [|c p IH]; intros rows n n' H; [discriminate H|].
  destruct n as [old|es]; [discriminate H|].
  apply append_Dir_inv in H. destruct p as [|c' p'].
  - destruct H as [(old & Hc & ->)|[Hc ->]]; rewrite !lookup_cons, Hc.
    + now rewrite find_entry_set_same.
    + rewrite find_entry_app, Hc. simpl. now rewrite String.eqb_refl.
  - destruct H as (child & child' & Hc & Hw & ->).
    rewrite !lookup_cons, find_entry_set_same, Hc. now apply (IH _ _ _ Hw).
Qed.

(** Paths that do not lead towards [p] are not affected. *)
Lemma append_lookup_other p : forall rows n n' q,
  append_at p rows n = Ok n' -> (forall r, p <> q ++ r) -> lookup q n' = lookup q n.
Proof.
  induction p as [|c p IH]; intros rows n n' q H Hne; [discriminate H|].
  destruct n as [old|es]; [discriminate H|].
  apply append_Dir_inv in H.
  destruct q as [|d q]; [now destruct (Hne (c :: p))|].
  destruct p as [|c' p'].
  - destruct H as [(old & Hc & ->)|[Hc ->]]; rewrite !lookup_cons.
    + destruct (String.eqb_spec c d) as [<-|Hcd].
      * rewrite find_entry_set_same, Hc.
        destruct q as [|x q]; [now destruct (Hne [])|reflexivity].
      * now rewrite find_entry_set_other.
    + rewrite find_entry_app.
      destruct (find_entry d es) as [x|] eqn:Hd; [reflexivity|]. simpl.
      destruct (String.eqb_spec c d) as [<-|Hcd]; [|reflexivity].
      destruct q as [|x q]; [now destruct (Hne [])|reflexivity].
  - destruct H as (child & child' & Hc & Hw & ->). rewrite !lookup_cons.
    destruct (String.eqb_spec c d) as [<-|Hcd].
    + rewrite find_entry_set_same, Hc. apply (IH _ _ _ _ Hw).
      intros r Heq. apply (Hne r). simpl. now rewrite Heq.
    + now rewrite find_entry_set_other.
Qed.


Lemma first_fields_app a b la lb :
  first_fields a = Ok la -> first_fields b = Ok lb -> first_fields (a ++ b) = Ok (la ++ lb).
Proof.
  unfold first_fields. revert la. induction a as [|row a IH]; simpl; intros la Ha Hb.
  - injection Ha as <-. exact Hb.
  - unfold result_bind in *. destruct (Py.getitem row 0) as [x|e]; [|discriminate].
    destruct (comprehension (fun row0 => Py.getitem row0 0) a) as [xs|e]; [|discriminate].
    injection Ha as <-. now rewrite (IH xs eq_refl Hb).
Qed.

(** *** [load_progress] *)

Lemma load_progress_frame p w r w' : load_progress p w = Some (r, w') -> w' = w.
Proof.
  unfold load_progress. rewrite (bind_ok _ _ _ _ _ (exists_run p w)).
  destruct (os_path_exists p (fs w)); cbn [negb].
  - unfold bind, csv_read, lift. destruct (read_at p (fs w)); now intros [= _ <-].
  - unfold ret. now intros [= _ <-].
Qed.

Lemma load_progress_rows p w labeled w' :
  load_progress p w = Some (Ok labeled, w') ->
  first_fields (file_rows p (fs w)) = Ok labeled /\
  (forall sub, lookup p (fs w) <> Some (Dir sub)).
Proof.
  unfold load_progress, file_rows. rewrite (bind_ok _ _ _ _ _ (exists_run p w)).
  unfold os_path_exists, bind, csv_read, lift, ret, read_at. cbv beta.
  destruct (lookup p (fs w)) as [[rows|sub]|] eqn:E; cbn [negb]; cbv beta;
    rewrite ?E; intros H.
  - destruct (first_fields rows) as [l|e] eqn:Hf; inversion H; subst.
    split; [reflexivity|discriminate].
  - discriminate.
  - inversion H; subst. split; [reflexivity|discriminate].
Qed.

Lemma load_progress_of_file p w rows labeled :
  lookup p (fs w) = Some (File rows) ->
  first_fields rows = Ok labeled ->
  load_progress p w = Some (Ok labeled, w).
Proof.
  intros Hl Hf. unfold load_progress. rewrite (bind_ok _ _ _ _ _ (exists_run p w)).
  unfold os_path_exists. rewrite Hl. cbn [negb].
  unfold bind, csv_read, lift, read_at. now rewrite Hl, Hf.
Qed.

(** ** The trial runner *)

Lemma string_length_app (a b : string) :
  String.length (a ++ b) = String.length a + String.length b.
Proof. induction a as [|c a IH]; simpl; [reflexivity|now rewrite IH]. Qed.

(** The progress file and the results file of a labeler are different
    files, and neither path leads to the other. *)
Lemma progress_file_is_not_output participant_info phase :
  (forall r, output_file_path participant_info
             <> progress_file_path participant_info phase ++ r) /\
  (forall r, progress_file_path participant_info phase
             <> output_file_path participant_info ++ r).
Proof.
  assert (Hne : (labeler participant_info ++ "_results.csv")%string
                <> (labeler participant_info ++ "_" ++ phase ++ "_progress.csv")%string).
  { intros Heq. apply (f_equal String.length) in Heq.
    rewrite !string_length_app in Heq. simpl in Heq. lia. }
  unfold output_file_path, progress_file_path, progress_directory.
  split; intros r Heq; cbn [List.app] in Heq; inversion Heq; congruence.
Qed.

Lemma output_file_not_towards_directory participant_info :
  forall r, progress_directory participant_info <> output_file_path participant_info ++ r.
Proof. apply not_prefix_longer. simpl. lia. Qed.

Lemma progress_file_not_towards_directory participant_info phase :
  forall r, progress_directory participant_info
            <> progress_file_path participant_info phase ++ r.
Proof.
  apply not_prefix_longer. unfold progress_file_path. rewrite length_app. simpl. lia.
Qed.

Lemma file_rows_after_append p rows n n' :
  append_at p rows n = Ok n' -> file_rows p n' = file_rows p n ++ rows.
Proof.
  intros H. unfold file_rows at 1. now rewrite (append_lookup_self _ _ _ _ H).
Qed.


Lemma csv_append_inv p rows w w' :
  csv_append p rows w = Some (Ok tt, w') ->
  exists n, append_at p rows (fs w) = Ok n /\ w' = set_fs n w.
Proof.
  unfold csv_append. destruct (append_at p rows (fs w)) as [n|e]; [|discriminate].
  intros [= <-]. eauto.
Qed.

(** [get_output_file_path]: the path it returns, and what it may change. *)
Lemma get_output_file_path_inv participant_info w p w' :
  get_output_file_path (labeler participant_info) w = Some (Ok p, w') ->
  p = output_file_path participant_info /\
  rng w' = rng w /\ stdout w' = stdout w /\
  (exists es, lookup (progress_directory participant_info) (fs w') = Some (Dir es)
              \/ (fs w' = fs w /\
                  exists rows, lookup (progress_directory participant_info) (fs w)
                               = Some (File rows))) /\
  (forall q, (forall r, progress_directory participant_info <> q ++ r) ->
             lookup q (fs w') = lookup q (fs w)).
Proof.
  unfold get_output_file_path.
  rewrite (bind_ok _ _ _ _ _ (exists_run _ w)).
  change ["results"; labeler participant_info] with (progress_directory participant_info).
  unfold os_path_exists.
  destruct (lookup (progress_directory participant_info) (fs w)) as [x|] eqn:Hx; cbn [negb].
  - rewrite (bind_ok _ _ _ _ _ (eq_refl : ret tt w = Some (Ok tt, w))).
    unfold ret. intros [= <- <-]. repeat split.
    destruct x as [rows|es]; [exists []; right|exists es; left]; eauto.
  - unfold bind at 1. unfold os_makedirs_new, os_path_exists. rewrite Hx.
    destruct (makedirs_at (progress_directory participant_info) (fs w)) as [n|e] eqn:Hm;
      [|discriminate].
    unfold ret. intros [= <- <-]. repeat split.
    + destruct (makedirs_lookup_self _ _ _ Hm) as [es Hes]. exists es. now left.
    + intros q Hq. now apply (makedirs_lookup_other _ _ _ _ Hm).
Qed.

Lemma grown_by_nothing p w : grown_by p [] w w.
Proof. unfold grown_by. rewrite app_nil_r. auto. Qed.

Lemma grown_by_trans p rows1 rows2 w1 w2 w3 :
  grown_by p rows1 w1 w2 -> grown_by p rows2 w2 w3 -> grown_by p (rows1 ++ rows2) w1 w3.
Proof.
  intros (Hr1 & Hs1 & Hf1 & Hl1) (Hr2 & Hs2 & Hf2 & Hl2). unfold grown_by.
  repeat split; try congruence.
  - now rewrite Hf2, Hf1, app_assoc.
  - intros q Hq. now rewrite (Hl2 q Hq), (Hl1 q Hq).
Qed.

Lemma grown_by_append p rows w n :
  append_at p rows (fs w) = Ok n -> grown_by p rows w (set_fs n w).
Proof.
  intros H. unfold grown_by. change (fs (set_fs n w)) with n. repeat split.
  - now apply file_rows_after_append.
  - intros q Hq. now apply (append_lookup_other _ _ _ _ _ H).
Qed.

Section TrialRunnerFacts.

Context {timestamp : Type}.
Variable strftime_HMS : timestamp -> string.
Variable format_duration : timestamp -> timestamp -> string.

Implicit Types (l : Lab timestamp).


Lemma bindL_raise {A B} (m : L timestamp A) (k : A -> L timestamp B) l e l' :
  m l = Some (Raise e, l') -> bindL m k l = Some (Raise e, l').
Proof. unfold bindL. now intros ->. Qed.

Lemma bindL_inv {A B} (m : L timestamp A) (k : A -> L timestamp B) l b l' :
  bindL m k l = Some (Ok b, l') ->
  exists a l1, m l = Some (Ok a, l1) /\ k a l1 = Some (Ok b, l').
Proof.
  unfold bindL. destruct (m l) as [[[a|e] l1]|]; try discriminate. eauto.
Qed.

Lemma in_world_ok {A} (m : M A) l r w' :
  m (world l) = Some (r, w') -> in_world m l = Some (r, set_world w' l).
Proof. unfold in_world. now intros ->. Qed.

Lemma in_world_inv {A} (m : M A) l r l' :
  in_world m l = Some (r, l') ->
  exists w', m (world l) = Some (r, w') /\ l' = set_world w' l.
Proof.
  unfold in_world. destruct (m (world l)) as [[r0 w']|]; [|discriminate].
  intros [= <- <-]. eauto.
Qed.

Lemma only_keys_used_refl l : only_keys_used l l.
Proof. repeat split. Qed.

Lemma only_keys_used_trans l1 l2 l3 :
  only_keys_used l1 l2 -> only_keys_used l2 l3 -> only_keys_used l1 l3.
Proof. unfold only_keys_used. intuition congruence. Qed.

Lemma waitKeys_inv keyList l r l' :
  waitKeys keyList l = Some (r, l') ->
  exists k, r = Ok k /\ str_in k keyList = true /\ only_keys_used l l'.
Proof.
  unfold waitKeys. destruct (next_key keyList (presses l)) as [[k ks']|] eqn:Hk;
    [|discriminate].
  intros [= <- <-]. exists k. repeat split.
  revert Hk. generalize (presses l). intros ks. induction ks as [|x ks IH]; [discriminate|].
  simpl. destruct (str_in x keyList) eqn:Hx; [|exact IH].
  now intros [= <- _].
Qed.

Lemma present_trial_loop_inv fuel : forall nr l r l',
  present_trial_loop fuel nr l = Some (r, l') ->
  exists key n, r = Ok (key, n) /\ In key ["left"; "down"; "right"] /\
                only_keys_used l l'.
Proof.
  induction fuel as [|fuel IH]; intros nr l r l' H; [discriminate H|].
  cbn [present_trial_loop] in H. unfold bindL at 1 in H.
  destruct (waitKeys ["left"; "down"; "right"; "r"] l) as [[r0 l1]|] eqn:Hw;
    [|discriminate].
  destruct (waitKeys_inv _ _ _ _ Hw) as (k & -> & Hin & Hframe).
  revert H. destruct (String.eqb_spec k "r") as [Hr|Hr]; intros H.
  - destruct (IH _ _ _ _ H) as (key & n & -> & Hkey & Hframe').
    exists key, n. split; [reflexivity|]. split; [exact Hkey|].
    now apply (only_keys_used_trans _ _ _ Hframe).
  - unfold retL in H. injection H as <- <-.
    exists k, nr. split; [reflexivity|]. split; [|exact Hframe].
    revert Hin. unfold str_in. cbn [existsb].
    destruct (String.eqb_spec "left" k) as [<-|_]; [simpl; auto|].
    destruct (String.eqb_spec "down" k) as [<-|_]; [simpl; auto|].
    destruct (String.eqb_spec "right" k) as [<-|_]; [simpl; auto|].
    destruct (String.eqb_spec "r" k) as [<-|_]; [congruence|discriminate].
Qed.

Lemma present_trial_inv l r l' :
  present_trial l = Some (r, l') ->
  exists key n, r = Ok (key, n) /\ In key ["left"; "down"; "right"] /\
                only_keys_used l l'.
Proof. apply present_trial_loop_inv. Qed.

Lemma trial_loop_cons phase participant_info nob bra output_filename start_time
    stimulus_file stimuli_files' trial_counter processed_stimuli :
  trial_loop strftime_HMS format_duration phase participant_info nob bra output_filename
             start_time (stimulus_file :: stimuli_files') trial_counter processed_stimuli
  = bindL (in_world (lift (extract_filename_info stimulus_file))) (fun stimulus =>
    bindL present_trial (fun answer =>
    bindL time_time (fun end_time =>
    bindL (in_world
             (csv_append output_filename
                [trial_data participant_info trial_counter phase (fst answer)
                   nob bra stimulus_file (snd answer) stimulus
                   (strftime_HMS start_time) (strftime_HMS end_time)
                   (format_duration start_time end_time)])) (fun _ =>
    bindL (waitKeys ["return"; "escape"]) (fun keys =>
      if (keys =? "escape")%string then
        if (phase =? "practice")%string then
          bindL (waitKeys ["return"]) (fun _ =>
          bindL (print_notice MovingToTestPhase) (fun _ =>
          retL (processed_stimuli ++ [stimulus_file])))
        else
          bindL (print_notice ExperimentPaused) (fun _ =>
          retL (processed_stimuli ++ [stimulus_file]))
      else
        trial_loop strftime_HMS format_duration phase participant_info nob bra
                   output_filename start_time stimuli_files' (trial_counter + 1)
                   (processed_stimuli ++ [stimulus_file])))))).
Proof. reflexivity. Qed.

Lemma time_time_inv l r l' :
  @time_time timestamp l = Some (r, l') ->
  r = Ok (clock l (clock_reads l)) /\ world l' = world l /\ clock l' = clock l /\
  presses l' = presses l /\ clock_reads l' = S (clock_reads l) /\
  printed l' = printed l.
Proof. unfold time_time. intros [= <- <-]. repeat split. Qed.

Lemma print_notice_inv line l r l' :
  @print_notice timestamp line l = Some (r, l') ->
  r = Ok tt /\ world l' = world l /\ printed l' = printed l ++ [line].
Proof. unfold print_notice. intros [= <- <-]. repeat split. Qed.

(** Whatever the participant does, a [for] loop that ends normally has
    processed a front part of its stimuli, and written one row for each;
    it has printed nothing, or the line of a stop. *)
Lemma trial_loop_inv phase participant_info nob bra output_filename start_time :
  forall stimuli_files trial_counter processed_stimuli l result l',
    trial_loop strftime_HMS format_duration phase participant_info nob bra
               output_filename start_time stimuli_files trial_counter processed_stimuli l
    = Some (Ok result, l') ->
    exists done skipped rows,
      stimuli_files = done ++ skipped /\
      result = processed_stimuli ++ done /\
      map (fun row => nth 10 row "") rows = done /\
      grown_by output_filename rows (world l) (world l') /\
      ((printed l' = printed l /\ skipped = []) \/
       printed l' = printed l ++ [stop_notice phase]).
Proof.
  induction stimuli_files as [|s stimuli_files IH];
    intros trial_counter processed_stimuli l result l' H.
  - cbn [trial_loop] in H. unfold retL in H. injection H as <- <-.
    exists [], [], []. split; [reflexivity|]. split; [now rewrite app_nil_r|].
    split; [reflexivity|]. split; [apply grown_by_nothing|now left].
  - rewrite trial_loop_cons in H.
    apply bindL_inv in H. destruct H as (stimulus & l1 & Hx & H).
    apply in_world_inv in Hx. destruct Hx as (w1 & Hx & ->).
    unfold lift in Hx. injection Hx as Hx <-.
    apply bindL_inv in H. destruct H as (answer & l2 & Hp & H).
    destruct (present_trial_inv _ _ _ Hp) as (key & n & _ & _ & Hw2 & _ & _ & Hp2).
    apply bindL_inv in H. destruct H as (end_time & l3 & Ht & H).
    destruct (time_time_inv _ _ _ Ht) as (_ & Hw3 & _ & _ & _ & Hp3).
    apply bindL_inv in H. destruct H as ([] & l4 & Ha & H).
    apply in_world_inv in Ha. destruct Ha as (w4 & Ha & ->).
    apply csv_append_inv in Ha. destruct Ha as (n4 & Ha & ->).
    apply bindL_inv in H. destruct H as (keys & l5 & Hk & H).
    destruct (waitKeys_inv _ _ _ _ Hk) as (k & _ & _ & Hw5 & _ & _ & Hp5).
    assert (Hgrow : grown_by output_filename
              [trial_data participant_info trial_counter phase (fst answer) nob bra s
                 (snd answer) stimulus (strftime_HMS start_time) (strftime_HMS end_time)
                 (format_duration start_time end_time)]
              (world l) (world l5)).
    { rewrite Hw5. change (world (set_world (set_fs n4 (world l3)) l3))
        with (set_fs n4 (world l3)).
      assert (Hwl : world l3 = world l).
      { rewrite Hw3, Hw2. reflexivity. }
      rewrite Hwl in *. now apply grown_by_append. }
    assert (Hprinted : printed l5 = printed l).
    { rewrite Hp5. change (printed (set_world (set_fs n4 (world l3)) l3)) with (printed l3).
      rewrite Hp3, Hp2. reflexivity. }
    set (row := trial_data participant_info trial_counter phase (fst answer) nob bra s
                  (snd answer) stimulus (strftime_HMS start_time) (strftime_HMS end_time)
                  (format_duration start_time end_time)) in *.
    destruct (keys =? "escape")%string.
    + assert (Hstop : result = processed_stimuli ++ [s] /\ world l' = world l5 /\
                      printed l' = printed l5 ++ [stop_notice phase]).
      { unfold stop_notice. destruct (phase =? "practice")%string.
        - apply bindL_inv in H. destruct H as (k' & l6 & Hk' & H).
          destruct (waitKeys_inv _ _ _ _ Hk') as (_ & _ & _ & Hw6 & _ & _ & Hp6).
          apply bindL_inv in H. destruct H as ([] & l7 & Hn & H).
          destruct (print_notice_inv _ _ _ _ Hn) as (_ & Hw7 & Hp7).
          unfold retL in H. injection H as <- <-.
          repeat split; congruence.
        - apply bindL_inv in H. destruct H as ([] & l7 & Hn & H).
          destruct (print_notice_inv _ _ _ _ Hn) as (_ & Hw7 & Hp7).
          unfold retL in H. injection H as <- <-.
          repeat split; congruence. }
      destruct Hstop as (-> & Hw' & Hp').
      exists [s], stimuli_files, [row]. split; [reflexivity|]. split; [reflexivity|].
      split; [reflexivity|]. split; [rewrite Hw'; exact Hgrow|].
      right. now rewrite Hp', Hprinted.
    + destruct (IH _ _ _ _ _ H)
        as (done & skipped & rows & -> & -> & Hrows & Hgrow' & Hpr).
      exists (s :: done), skipped, (row :: rows).
      split; [reflexivity|]. split; [now rewrite <- app_assoc|].
      split; [cbn [map]; now rewrite Hrows|].
      split; [exact (grown_by_trans _ [row] rows _ _ _ Hgrow Hgrow')|].
      rewrite <- Hprinted. exact Hpr.
Qed.

Lemma os_makedirs_new_inv p w w' :
  os_makedirs_new p w = Some (Ok tt, w') ->
  exists n, makedirs_at p (fs w) = Ok n /\ w' = set_fs n w.
Proof.
  unfold os_makedirs_new. destruct (os_path_exists p (fs w)); [discriminate|].
  destruct (makedirs_at p (fs w)) as [n|e]; [|discriminate].
  intros [= <-]. eauto.
Qed.

Lemma file_rows_same p n n' : lookup p n' = lookup p n -> file_rows p n' = file_rows p n.
Proof. unfold file_rows. now intros ->. Qed.

(** [run_trial_phase] read backwards from a normal return. *)
Lemma run_trial_phase_inv
    (stimuli_files : list string) (phase : string) (participant_info : ParticipantInfo)
    (stimuli_path : path) (nobracket_pos_label bracket_pos_label : string) l l' :
  run_trial_phase strftime_HMS format_duration stimuli_files phase participant_info
                  stimuli_path nobracket_pos_label bracket_pos_label
                  (progress_file_path participant_info phase) l
  = Some (Ok tt, l') ->
  exists labeled_stimuli processed_stimuli skipped rows,
    load_progress (progress_file_path participant_info phase) (world l)
    = Some (Ok labeled_stimuli, world l) /\
    filter (fun file => negb (str_in file labeled_stimuli)) stimuli_files
    = processed_stimuli ++ skipped /\
    load_progress (progress_file_path participant_info phase) (world l')
    = Some (Ok (labeled_stimuli ++ processed_stimuli), world l') /\
    map (fun row => nth 10 row "") rows = processed_stimuli /\
    file_rows (output_file_path participant_info) (fs (world l'))
    = file_rows (output_file_path participant_info) (fs (world l))
      ++ (if os_path_exists (output_file_path participant_info) (fs (world l))
          then [] else [headers])
      ++ rows /\
    rng (world l') = rng (world l) /\ stdout (world l') = stdout (world l) /\
    ((printed l' = printed l /\ skipped = []) \/
     printed l' = printed l ++ [stop_notice phase]).
Proof.
  intros H. unfold run_trial_phase in H.
  set (PF := progress_file_path participant_info phase) in *.
  set (OUT := output_file_path participant_info) in *.
  destruct (progress_file_is_not_output participant_info phase) as [Hout_pf Hpf_out].
  fold PF OUT in Hout_pf, Hpf_out.
  pose proof (progress_file_not_towards_directory participant_info phase) as Hpf_dir.
  pose proof (output_file_not_towards_directory participant_info) as Hout_dir.
  fold PF in Hpf_dir. fold OUT in Hout_dir.
  (* the progress log *)
  apply bindL_inv in H. destruct H as (labeled & l1 & Hlp & H).
  apply in_world_inv in Hlp. destruct Hlp as (w1 & Hlp & ->).
  pose proof (load_progress_frame _ _ _ _ Hlp) as ->.
  (* the results directory *)
  apply bindL_inv in H. destruct H as (found & l2 & Hfound & H).
  apply in_world_inv in Hfound. destruct Hfound as (w2 & Hfound & ->).
  unfold exists_ in Hfound. injection Hfound as <- <-.
  change (world (set_world (world l) l)) with (world l) in *.
  apply bindL_inv in H. destruct H as ([] & l3 & Hmk & H).
  assert (HA : rng (world l3) = rng (world l) /\ stdout (world l3) = stdout (world l) /\
               printed l3 = printed l /\
               forall q, (forall r, progress_directory participant_info <> q ++ r) ->
                         lookup q (fs (world l3)) = lookup q (fs (world l))).
  { change ["results"; labeler participant_info]
      with (progress_directory participant_info) in Hmk.
    destruct (os_path_exists (progress_directory participant_info) (fs (world l)));
      cbn [negb] in Hmk.
    - unfold retL in Hmk. injection Hmk as <-. repeat split.
    - apply in_world_inv in Hmk. destruct Hmk as (w3 & Hmk & ->).
      apply os_makedirs_new_inv in Hmk. destruct Hmk as (n & Hmk & ->).
      repeat split. intros q Hq. now apply (makedirs_lookup_other _ _ _ _ Hmk). }
  destruct HA as (HAr & HAs & HAp & HAl).
  (* the clock and the results file *)
  apply bindL_inv in H. destruct H as (start_time & l4 & Ht & H).
  destruct (time_time_inv _ _ _ Ht) as (_ & Hw4 & _ & _ & _ & Hp4).
  apply bindL_inv in H. destruct H as (output_filename & l5 & Hg & H).
  apply in_world_inv in Hg. destruct Hg as (w5 & Hg & ->).
  destruct (get_output_file_path_inv _ _ _ _ Hg) as (-> & HBr & HBs & _ & HBl).
  fold OUT in H. rewrite Hw4 in HBr, HBs, HBl.
  apply bindL_inv in H. destruct H as (file_exists & l6 & Hfe & H).
  apply in_world_inv in Hfe. destruct Hfe as (w6 & Hfe & ->).
  unfold exists_ in Hfe. injection Hfe as <- <-.
  change (world (set_world w5 l4)) with w5 in *.
  apply bindL_inv in H. destruct H as ([] & l7 & Hh & H).
  apply in_world_inv in Hh. destruct Hh as (w7 & Hh & ->).
  change (world (set_world w5 (set_world w5 l4))) with w5 in Hh.
  apply csv_append_inv in Hh. destruct Hh as (n7 & Hh & ->).
  pose proof (grown_by_append _ _ _ _ Hh) as HC.
  (* the trials *)
  apply bindL_inv in H. destruct H as (processed & l8 & Hloop & H).
  destruct (trial_loop_inv _ _ _ _ _ _ _ _ _ _ _ _ Hloop)
    as (done & skipped & rows & Hsplit & Hdone & Hrows & HD & Hpr).
  simpl in Hdone. subst processed.
  change (world (set_world (set_fs n7 w5) (set_world w5 (set_world w5 l4))))
    with (set_fs n7 w5) in HD.
  change (printed (set_world (set_fs n7 w5) (set_world w5 (set_world w5 l4))))
    with (printed l4) in Hpr.
  rewrite Hp4, HAp in Hpr.
  pose proof (grown_by_trans _ _ _ _ _ _ HC HD) as (HEr & HEs & HEf & HEl).
  (* the progress file *)
  apply in_world_inv in H. destruct H as (w9 & H & ->).
  apply csv_append_inv in H. destruct H as (n9 & H & ->).
  change (world (set_world (set_fs n9 (world l8)) l8)) with (set_fs n9 (world l8)).
  change (printed (set_world (set_fs n9 (world l8)) l8)) with (printed l8).
  change (fs (set_fs n9 (world l8))) with n9.
  change (rng (set_fs n9 (world l8))) with (rng (world l8)).
  change (stdout (set_fs n9 (world l8))) with (stdout (world l8)).
  destruct (load_progress_rows _ _ _ _ Hlp) as [Hfirst _].
  assert (Hpf_same : file_rows PF (fs (world l8)) = file_rows PF (fs (world l))).
  { apply file_rows_same. rewrite (HEl PF Hout_pf), (HBl PF Hpf_dir).
    now apply HAl. }
  assert (Hout_same : lookup OUT (fs w5) = lookup OUT (fs (world l))).
  { rewrite (HBl OUT Hout_dir). now apply HAl. }
  exists labeled, done, skipped, rows.
  split; [exact Hlp|]. split; [exact Hsplit|].
  split; [|split; [exact Hrows|split; [|split; [|split; [|exact Hpr]]]]].
  - apply load_progress_of_file
      with (rows := file_rows PF (fs (world l8))
                    ++ map (fun stimulus_file => [stimulus_file]) done).
    + exact (append_lookup_self _ _ _ _ H).
    + apply first_fields_app; [now rewrite Hpf_same|apply first_fields_singletons].
  - rewrite (file_rows_same OUT (fs (world l8)) n9)
      by (apply (append_lookup_other _ _ _ _ _ H); exact Hpf_out).
    rewrite HEf. rewrite (file_rows_same OUT (fs (world l)) (fs w5)) by exact Hout_same.
    unfold os_path_exists. rewrite Hout_same.
    f_equal. f_equal.
    now destruct (lookup OUT (fs (world l))).
  - congruence.
  - congruence.
Qed.

(** X9. Whatever the participant does: when [run_trial_phase], called
    with the labeler's progress file, returns normally, it has processed a
    front part of the stimuli that the progress log did not yet list, in
    their order; the progress log read afterwards is the old log followed
    by the processed stimuli; the results file has its old rows, the header
    row if the file was new, and one row per processed stimulus, naming it
    in the column [recording_processed]; the random generator and the
    lines printed by the randomization are untouched; and either every
    stimulus was processed and nothing was printed, or the line of a stop
    was printed. *)
Theorem run_trial_phase_records_progress
    (stimuli_files : list string) (phase : string) (participant_info : ParticipantInfo)
    (stimuli_path : path) (nobracket_pos_label bracket_pos_label : string) l l' :
  run_trial_phase strftime_HMS format_duration stimuli_files phase participant_info
                  stimuli_path nobracket_pos_label bracket_pos_label
                  (progress_file_path participant_info phase) l
  = Some (Ok tt, l') ->
  exists labeled_stimuli processed_stimuli skipped rows,
    load_progress (progress_file_path participant_info phase) (world l)
    = Some (Ok labeled_stimuli, world l) /\
    filter (fun file => negb (str_in file labeled_stimuli)) stimuli_files
    = processed_stimuli ++ skipped /\
    load_progress (progress_file_path participant_info phase) (world l')
    = Some (Ok (labeled_stimuli ++ processed_stimuli), world l') /\
    map (fun row => nth 10 row "") rows = processed_stimuli /\
    file_rows (output_file_path participant_info) (fs (world l'))
    = file_rows (output_file_path participant_info) (fs (world l))
      ++ (if os_path_exists (output_file_path participant_info) (fs (world l))
          then [] else [headers])
      ++ rows /\
    rng (world l') = rng (world l) /\ stdout (world l') = stdout (world l) /\
    ((printed l' = printed l /\ skipped = []) \/
     printed l' = printed l ++ [stop_notice phase]).
Proof. apply run_trial_phase_inv. Qed.

Lemma str_in_In (s : string) (xs : list string) : str_in s xs = true <-> In s xs.
Proof.
  unfold str_in. rewrite existsb_exists. split.
  - intros (x & Hin & Heq). apply String.eqb_eq in Heq. now subst.
  - intros Hin. exists s. split; [exact Hin|apply String.eqb_refl].
Qed.

(** X10. No stimulus is labeled twice: when the stimuli handed to
    [run_trial_phase] are pairwise distinct and the progress log lists no
    stimulus twice, then after a normal return the progress log still
    lists no stimulus twice, it has kept its old entries, and every new
    entry is one of the stimuli handed in. *)
Theorem progress_log_keeps_stimuli_distinct
    (stimuli_files : list string) (phase : string) (participant_info : ParticipantInfo)
    (stimuli_path : path) (nobracket_pos_label bracket_pos_label : string)
    (labeled_stimuli : list string) l l' :
  NoDup stimuli_files ->
  load_progress (progress_file_path participant_info phase) (world l)
  = Some (Ok labeled_stimuli, world l) ->
  NoDup labeled_stimuli ->
  run_trial_phase strftime_HMS format_duration stimuli_files phase participant_info
                  stimuli_path nobracket_pos_label bracket_pos_label
                  (progress_file_path participant_info phase) l
  = Some (Ok tt, l') ->
  exists processed_stimuli,
    load_progress (progress_file_path participant_info phase) (world l')
    = Some (Ok (labeled_stimuli ++ processed_stimuli), world l') /\
    NoDup (labeled_stimuli ++ processed_stimuli) /\
    incl processed_stimuli stimuli_files.
Proof.
  intros Hnd Hlp Hndl H.
  destruct (run_trial_phase_inv _ _ _ _ _ _ _ _ H)
    as (labeled & done & skipped & rows & Hlp' & Hsplit & Hafter & _).
  rewrite Hlp in Hlp'. injection Hlp' as <-.
  exists done. split; [exact Hafter|].
  assert (Hin : forall s, In s done ->
                          In s stimuli_files /\ ~ In s labeled_stimuli).
  { intros s Hs.
    assert (Hf : In s (filter (fun file => negb (str_in file labeled_stimuli))
                              stimuli_files)).
    { rewrite Hsplit. apply in_or_app. now left. }
    apply filter_In in Hf. destruct Hf as [Hf1 Hf2]. split; [exact Hf1|].
    intros Hl. apply str_in_In in Hl. rewrite Hl in Hf2. discriminate. }
  split.
  - assert (Hndf : NoDup (done ++ skipped)).
    { rewrite <- Hsplit. now apply NoDup_filter. }
    apply NoDup_app_remove_r in Hndf.
    apply NoDup_app; [exact Hndl|exact Hndf|].
    intros s Hl Hd. now apply (proj2 (Hin s Hd)).
  - intros s Hs. now apply Hin.
Qed.

(** *** Scripted sessions *)




















(** *** The practice phase, session after session *)










(** *** The test phase, resumed *)


End TrialRunnerFacts.

(** *** Scoring *)

Lemma scoring_cases (response_key condition nob bra : string) :
  (nob = "left" /\ bra = "right") \/ (nob = "right" /\ bra = "left") ->
  In condition ["nob"; "bra"] ->
  In response_key ["left"; "down"; "right"] ->
  let score := accuracy response_key (correct_answer condition nob bra) in
  let chosen := response_condition response_key nob bra in
  (score = 1 /\ chosen = condition /\ response_key <> "down") \/
  (score = 2 /\ chosen = "unknown" /\ response_key = "down") \/
  (score = 0 /\ chosen <> condition /\ In chosen ["nob"; "bra"] /\ response_key <> "down").
Proof.
  intros [[-> ->]|[-> ->]] [<-|[<-|[]]] [<-|[<-|[<-|[]]]]; cbv zeta;
    vm_compute accuracy; vm_compute response_condition;
    first [ left; repeat split; discriminate
          | right; left; repeat split; discriminate
          | right; right; repeat split; first [discriminate | simpl; tauto] ].
Qed.

(** X15. Scoring of a response. With the two pictures labeled ["left"]
    and ["right"], in either order, and a stimulus of condition ["nob"] or
    ["bra"]: the accuracy column of the row of a trial is [1] exactly when
    the response condition column equals the condition of the recording,
    [2] exactly when the participant pressed [down] (the response
    condition then being ["unknown"]), and [0] otherwise. *)
Theorem accuracy_scores_the_chosen_picture
    (participant_info : ParticipantInfo) (trial_counter : nat) (phase response_key : string)
    (nobracket_pos_label bracket_pos_label stimulus_file : string) (nr_repetitions : nat)
    (stimulus : Stimulus) (start_time_str end_time_str duration_str : string) :
  (nobracket_pos_label = "left" /\ bracket_pos_label = "right") \/
  (nobracket_pos_label = "right" /\ bracket_pos_label = "left") ->
  In (condition stimulus) ["nob"; "bra"] ->
  In response_key ["left"; "down"; "right"] ->
  let row := trial_data participant_info trial_counter phase response_key
                        nobracket_pos_label bracket_pos_label stimulus_file
                        nr_repetitions stimulus start_time_str end_time_str duration_str in
  (nth 7 row "" = "1" <-> nth 6 row "" = nth 14 row "") /\
  (nth 7 row "" = "2" <-> nth 5 row "" = "down") /\
  (nth 7 row "" = "2" <-> nth 6 row "" = "unknown") /\
  In (nth 7 row "") ["0"; "1"; "2"].
Proof.
  intros Hlabels Hcond Hkey. cbv zeta. unfold trial_data. cbn [nth].
  destruct (scoring_cases response_key (condition stimulus) nobracket_pos_label
              bracket_pos_label Hlabels Hcond Hkey)
    as [(-> & -> & Hd)|[(-> & -> & Hd)|(-> & Hne & Hin & Hd)]];
    change (str_of_nat 0) with "0"; change (str_of_nat 1) with "1";
    change (str_of_nat 2) with "2".
  - repeat split; try tauto; try discriminate; try (simpl; tauto).
    intros Hu. rewrite Hu in Hcond. simpl in Hcond.
    destruct Hcond as [H|[H|[]]]; discriminate H.
  - repeat split; try tauto; try discriminate; try (simpl; tauto).
    intros Hu. rewrite <- Hu in Hcond. simpl in Hcond.
    destruct Hcond as [H|[H|[]]]; discriminate H.
  - repeat split; try tauto; try discriminate; try (simpl; tauto).
    intros Hu. rewrite Hu in Hin. simpl in Hin.
    destruct Hin as [H|[H|[]]]; discriminate H.
Qed.

(** ** Concrete sessions *)

Lemma run_trial_phase_records_progress_witness :
  exists l' processed_stimuli,
    run_trial_phase str_of_nat example_duration
      ["expA_spk1_o1_o2_o3_o4_1_wordP_cond1.wav"; "expA_spk2_o1_o2_o3_o4_2_wordQ_cond2.wav"]
      "practice" example_info ["stimuli"; "practice"] "left" "right"
      (progress_file_path example_info "practice")
      (example_lab ["r"; "x"; "left"; "return"; "down"; "escape"; "return"])
    = Some (Ok tt, l') /\
    load_progress (progress_file_path example_info "practice") (world l')
    = Some (Ok processed_stimuli, world l') /\
    rng (world l') = rng session_world.
Proof.
  eexists. 
  assert (Hrun : run_trial_phase str_of_nat example_duration
      ["expA_spk1_o1_o2_o3_o4_1_wordP_cond1.wav"; "expA_spk2_o1_o2_o3_o4_2_wordQ_cond2.wav"]
      "practice" example_info ["stimuli"; "practice"] "left" "right"
      (progress_file_path example_info "practice")
      (example_lab ["r"; "x"; "left"; "return"; "down"; "escape"; "return"])
    = Some (Ok tt, _)) by (lazy; reflexivity).
  destruct (run_trial_phase_records_progress _ _ _ _ _ _ _ _ _ _ Hrun)
    as (labeled & processed & skipped & rows & _ & _ & Hafter & _ & _ & Hrng & _).
  exists (labeled ++ processed). split; [exact Hrun|]. split; [exact Hafter|exact Hrng].
Defined.

Lemma progress_log_keeps_stimuli_distinct_witness :
  exists l' processed_stimuli,
    run_trial_phase str_of_nat example_duration
      ["expA_spk1_o1_o2_o3_o4_1_wordP_cond1.wav"; "expA_spk2_o1_o2_o3_o4_2_wordQ_cond2.wav"]
      "practice" example_info ["stimuli"; "practice"] "left" "right"
      (progress_file_path example_info "practice")
      (example_lab ["right"; "escape"; "return"])
    = Some (Ok tt, l') /\
    load_progress (progress_file_path example_info "practice") (world l')
    = Some (Ok processed_stimuli, world l') /\
    NoDup processed_stimuli.
Proof.
  eexists.
  assert (Hrun : run_trial_phase str_of_nat example_duration
      ["expA_spk1_o1_o2_o3_o4_1_wordP_cond1.wav"; "expA_spk2_o1_o2_o3_o4_2_wordQ_cond2.wav"]
      "practice" example_info ["stimuli"; "practice"] "left" "right"
      (progress_file_path example_info "practice")
      (example_lab ["right"; "escape"; "return"])
    = Some (Ok tt, _)) by (lazy; reflexivity).
  assert (Hnd : NoDup ["expA_spk1_o1_o2_o3_o4_1_wordP_cond1.wav";
                       "expA_spk2_o1_o2_o3_o4_2_wordQ_cond2.wav"]).
  { repeat constructor; simpl; intuition discriminate. }
  assert (Hlp : load_progress (progress_file_path example_info "practice")
                  (world (example_lab ["right"; "escape"; "return"]))
                = Some (Ok [], world (example_lab ["right"; "escape"; "return"])))
    by reflexivity.
  destruct (progress_log_keeps_stimuli_distinct _ _ _ _ _ _ _ _ [] _ _
              Hnd Hlp (NoDup_nil _) Hrun)
    as (processed & Hafter & Hnodup & _).
  exists processed. split; [exact Hrun|]. split; [exact Hafter|exact Hnodup].
Defined.





Lemma accuracy_scores_the_chosen_picture_witness :
  let row := trial_data example_info 1 "test" "right" "right" "left"
                        "exp_spk1_bra.wav" 0 (example_record "1" "bra") "0" "10" "10" in
  nth 7 row "" = "0" /\ nth 6 row "" = "nob" /\ nth 14 row "" = "bra" /\
  (nth 7 row "" = "1" <-> nth 6 row "" = nth 14 row "").
Proof.
  destruct (accuracy_scores_the_chosen_picture example_info 1 "test" "right" "right" "left"
              "exp_spk1_bra.wav" 0 (example_record "1" "bra") "0" "10" "10")
    as (Hone & _).
  - right. split; reflexivity.
  - simpl. auto.
  - simpl. auto.
  - repeat split; try reflexivity; apply Hone.
Defined.
